(** * Dream-mind-lucid consensus layer: AgentRegistry and DreamConsensus

    A shallow embedding of [consensus/src/AgentRegistry.cpp] and
    [consensus/src/DreamConsensus.cpp] (namespace [dream]), with the
    properties of the design document settled against it.

    - [std::string] is [string]; [uint64_t] is [N] (the code only stores and
      copies these counters, it never does arithmetic on them).
    - [std::unordered_map<std::string, T>] is [gmap string T]; the order in
      which a range-for visits it is left open (see [Registry]).
    - a thrown exception is the [Throw] result of a state-and-exception monad.
    - the libconsensus engine is an external library: its objects are records
      of what the controller did to them, and each call into it may throw. *)

From Stdlib Require Import NArith Ascii String List Lia Bool Sorted.
From stdpp Require Import gmap strings list fin_maps.

Local Open Scope string_scope.

(** ** The fragment of [std::regex] (ECMAScript grammar) the registry uses *)

Module Regex.

(** Abstract syntax of a pattern: literal characters, bracket expressions
    made of ranges, bounded repetition [{n}], sequencing and the two
    anchors. *)
Inductive regex : Type :=
| RBol                                   (* ^ *)
| REol                                   (* $ *)
| RChar (c : ascii)                      (* a literal character *)
| RClass (ranges : list (ascii * ascii)) (* [lo-hi...] *)
| RRepeat (r : regex) (n : nat)          (* r{n} *)
| RSeq (r1 r2 : regex).                  (* r1 r2 *)

(** A matcher position: how many characters were consumed, and what is
    left of the subject. *)
Definition pos : Type := (nat * list ascii)%type.

Definition in_range (c : ascii) (rg : ascii * ascii) : bool :=
  (nat_of_ascii (fst rg) <=? nat_of_ascii c)%nat
  && (nat_of_ascii c <=? nat_of_ascii (snd rg))%nat.

Definition in_class (ranges : list (ascii * ascii)) (c : ascii) : bool :=
  existsb (in_range c) ranges.

(** All positions at which a match of [r] started at [p] can end. *)
Fixpoint rmatch (r : regex) (p : pos) : list pos :=
  match r with
  | RBol => if (fst p =? 0)%nat then [p] else []
  | REol => match snd p with [] => [p] | _ :: _ => [] end
  | RChar c =>
      match snd p with
      | x :: rest => if Ascii.eqb x c then [(S (fst p), rest)] else []
      | [] => []
      end
  | RClass ranges =>
      match snd p with
      | x :: rest => if in_class ranges x then [(S (fst p), rest)] else []
      | [] => []
      end
  | RRepeat r' n => Nat.iter n (flat_map (rmatch r')) [p]
  | RSeq r1 r2 => flat_map (rmatch r2) (rmatch r1 p)
  end.

(** [std::regex_match]: the pattern has to match the whole subject. *)
Definition regex_match (s : string) (r : regex) : bool :=
  existsb (fun p => match snd p with [] => true | _ :: _ => false end)
          (rmatch r (0%nat, list_ascii_of_string s)).

(** The matcher's defining equations, for rewriting. *)
Lemma rmatch_seq (r1 r2 : regex) (p : pos) :
  rmatch (RSeq r1 r2) p = flat_map (rmatch r2) (rmatch r1 p).
Proof. reflexivity. Qed.

Lemma rmatch_bol (k : nat) (s : list ascii) :
  rmatch RBol (k, s) = if (k =? 0)%nat then [(k, s)] else [].
Proof. reflexivity. Qed.

Lemma rmatch_eol (k : nat) (s : list ascii) :
  rmatch REol (k, s) = match s with [] => [(k, s)] | _ :: _ => [] end.
Proof. reflexivity. Qed.

Lemma rmatch_char (c : ascii) (k : nat) (s : list ascii) :
  rmatch (RChar c) (k, s) =
  match s with
  | x :: rest => if Ascii.eqb x c then [(S k, rest)] else []
  | [] => []
  end.
Proof. reflexivity. Qed.

Lemma flat_map_one {A B : Type} (f : A -> list B) (x : A) :
  flat_map f [x] = f x.
Proof. cbn. apply app_nil_r. Qed.

Lemma flat_map_none {A B : Type} (f : A -> list B) :
  flat_map f [] = [].
Proof. reflexivity. Qed.

(** Reading [n] characters of a class off the front of the subject. *)
Fixpoint take_class (ranges : list (ascii * ascii)) (n : nat)
         (s : list ascii) : option (list ascii) :=
  match n with
  | O => Some s
  | S n' =>
      match s with
      | x :: rest =>
          if in_class ranges x then take_class ranges n' rest else None
      | [] => None
      end
  end.

Lemma iter_flat_map_nil (r : regex) (n : nat) :
  Nat.iter n (flat_map (rmatch r)) [] = [].
Proof. induction n as [|n IH]; simpl; [|rewrite IH]; reflexivity. Qed.

(** Repeating a bracket expression [n] times consumes exactly [n]
    characters of the class, or fails. *)
Lemma rmatch_repeat_class (ranges : list (ascii * ascii)) (n : nat) :
  forall (k : nat) (s : list ascii),
    rmatch (RRepeat (RClass ranges) n) (k, s) =
    match take_class ranges n s with
    | Some rest => [((n + k)%nat, rest)]
    | None => []
    end.
Proof.
  induction n as [|n IH]; intros k s; [reflexivity|].
  cbn [rmatch]. rewrite Nat.iter_succ_r.
  cbn [flat_map rmatch snd fst take_class].
  destruct s as [|x rest]; cbn [app].
  - exact (iter_flat_map_nil (RClass ranges) n).
  - destruct (in_class ranges x); cbn [app].
    + specialize (IH (S k) rest). cbn [rmatch] in IH. rewrite IH.
      destruct (take_class ranges n rest); [|reflexivity].
      do 2 f_equal. lia.
    + exact (iter_flat_map_nil (RClass ranges) n).
Qed.

Lemma take_class_Some (ranges : list (ascii * ascii)) (n : nat) :
  forall s rest : list ascii,
    take_class ranges n s = Some rest <->
    exists body, s = (body ++ rest)%list /\ length body = n /\
                 forallb (in_class ranges) body = true.
Proof.
  induction n as [|n IH]; intros s rest; cbn [take_class].
  - split.
    + intros [= ->]. exists []. auto.
    + intros (body & -> & Hlen & _).
      destruct body; [reflexivity|discriminate].
  - destruct s as [|x s'].
    + split; [discriminate|].
      intros (body & Heq & Hlen & _).
      destruct body; discriminate.
    + destruct (in_class ranges x) eqn:Hx.
      * rewrite IH. split.
        -- intros (body & -> & Hlen & Hall).
           exists (x :: body). cbn. rewrite Hx, Hall, Hlen. auto.
        -- intros (body & Heq & Hlen & Hall).
           destruct body as [|y body]; [discriminate|].
           cbn in Heq, Hlen, Hall. injection Heq as -> ->.
           apply andb_true_iff in Hall as [_ Hall].
           exists body. split; [reflexivity|]. split; [lia|exact Hall].
      * split; [discriminate|].
        intros (body & Heq & Hlen & Hall).
        destruct body as [|y body]; [discriminate|].
        cbn in Heq, Hall. injection Heq as -> ->.
        rewrite Hx in Hall. discriminate.
Qed.

End Regex.

(** ** AgentRegistry.h / AgentRegistry.cpp *)

Module Registry.
Import Regex.

(** [struct AgentInfo] *)
Record AgentInfo : Type := mkAgentInfo {
  address : string;
  role : string;
  permissions : list string               (* std::vector<std::string> *)
}.

(** [struct TokenInfo]; its [address] member is [tokenAddress] here, since
    two records cannot share a field name. *)
Record TokenInfo : Type := mkTokenInfo {
  tokenAddress : string;
  totalSupply : N;                        (* uint64_t *)
  decimals : N                            (* uint8_t *)
}.

(** *** Address validation *)

(** The pattern ["^0x[0-9a-fA-F]{40}$"] of [validateAddress]. *)
Definition addr_regex : regex :=
  RSeq RBol
    (RSeq (RChar "0")
       (RSeq (RChar "x")
          (RSeq (RRepeat (RClass [("0", "9"); ("a", "f"); ("A", "F")]%char) 40)
             REol))).

(** [AgentRegistry::validateAddress]. The method is [const] and touches no
    member, so it is a function of the string alone. *)
Definition validateAddress (address : string) : bool :=
  regex_match address addr_regex.

(** The address format in the words of the design document: a hexadecimal
    character is a digit or one of the letters a to f, in either case. *)
Definition is_hex_char (c : ascii) : bool :=
  existsb (Ascii.eqb c) (list_ascii_of_string "0123456789abcdefABCDEF").

(** ["0x"] followed by exactly 40 hexadecimal characters. *)
Definition well_formed_address (a : string) : Prop :=
  exists body : list ascii,
    a = "0x" ++ string_of_list_ascii body /\
    length body = 40%nat /\
    Forall (fun c => is_hex_char c = true) body /\
    String.length a = 42%nat.

Lemma hex_class_is_hex_char (c : ascii) :
  in_class [("0", "9"); ("a", "f"); ("A", "F")]%char c = is_hex_char c.
Proof.
  destruct c as [[] [] [] [] [] [] [] []]; vm_compute; reflexivity.
Qed.

Lemma forallb_hex_class (body : list ascii) :
  forallb (in_class [("0", "9"); ("a", "f"); ("A", "F")]%char) body = true <->
  Forall (fun c => is_hex_char c = true) body.
Proof.
  rewrite forallb_forall, Forall_forall.
  split; intros Hall c Hc.
  - rewrite <- hex_class_is_hex_char. apply Hall. apply list_elem_of_In, Hc.
  - rewrite hex_class_is_hex_char. apply Hall. apply list_elem_of_In, Hc.
Qed.

(** What the matcher computes on the address pattern. *)
Lemma validateAddress_unfold (a : string) :
  validateAddress a =
  match list_ascii_of_string a with
  | c0 :: c1 :: s =>
      Ascii.eqb c0 "0" && Ascii.eqb c1 "x" &&
      match take_class [("0", "9"); ("a", "f"); ("A", "F")]%char 40 s with
      | Some [] => true
      | _ => false
      end
  | _ => false
  end.
Proof.
  unfold validateAddress, regex_match, addr_regex.
  generalize (list_ascii_of_string a) as l. intros l.
  rewrite rmatch_seq, rmatch_bol. cbn [Nat.eqb]. rewrite flat_map_one.
  rewrite rmatch_seq, rmatch_char.
  destruct l as [|c0 l]; [reflexivity|].
  destruct (Ascii.eqb c0 "0");
    [rewrite flat_map_one | destruct l as [|? ?]; reflexivity].
  rewrite rmatch_seq, rmatch_char.
  destruct l as [|c1 s]; [reflexivity|].
  destruct (Ascii.eqb c1 "x"); [rewrite flat_map_one | reflexivity].
  rewrite rmatch_seq, rmatch_repeat_class. cbn [andb].
  destruct (take_class _ 40 s) as [rest|]; [|reflexivity].
  rewrite flat_map_one, rmatch_eol.
  destruct rest; reflexivity.
Qed.

Lemma string_length_of_list (l : list ascii) :
  String.length (string_of_list_ascii l) = length l.
Proof. induction l as [|c l IH]; cbn; [|rewrite IH]; reflexivity. Qed.

(** C2. [validateAddress a] returns true exactly when [a] is ["0x"]
    followed by exactly 40 hexadecimal characters (digits, a-f, A-F), so
    that its length is 42. The function depends on the string only: it
    reads no registry state and returns none. *)
Theorem validateAddress_iff_well_formed (a : string) :
  validateAddress a = true <-> well_formed_address a.
Proof.
  rewrite validateAddress_unfold. split.
  - destruct (list_ascii_of_string a) as [|c0 [|c1 s]] eqn:Hl;
      try discriminate.
    intros Hv.
    apply andb_true_iff in Hv as [Hv Htake].
    apply andb_true_iff in Hv as [H0 Hx].
    apply Ascii.eqb_eq in H0, Hx. subst c0 c1.
    destruct (take_class _ 40 s) as [[|? ?]|] eqn:Ht; try discriminate.
    apply take_class_Some in Ht as (body & Hs & Hlen & Hall).
    rewrite app_nil_r in Hs. subst s.
    assert (a = "0x" ++ string_of_list_ascii body) as Ha.
    { rewrite <- (string_of_list_ascii_of_string a), Hl. reflexivity. }
    exists body. split; [exact Ha|]. split; [exact Hlen|].
    split; [apply forallb_hex_class, Hall|].
    rewrite Ha.
    change (S (S (String.length (string_of_list_ascii body))) = 42%nat).
    rewrite string_length_of_list, Hlen. reflexivity.
  - intros (body & Ha & Hlen & Hall & _). subst a.
    change (list_ascii_of_string ("0x" ++ string_of_list_ascii body))
      with ("0"%char :: "x"%char
              :: list_ascii_of_string (string_of_list_ascii body)).
    rewrite list_ascii_of_string_of_list_ascii.
    change (Ascii.eqb "0" "0" && Ascii.eqb "x" "x") with true.
    cbn [andb].
    replace (take_class _ 40 body) with (Some (@nil ascii)); [reflexivity|].
    symmetry. apply take_class_Some.
    exists body. rewrite app_nil_r.
    split; [reflexivity|]. split; [exact Hlen|].
    apply forallb_hex_class, Hall.
Qed.

(** The three sample addresses of the design document: 40 zeros, 39
    characters, upper-case digits. *)
Example validateAddress_zeros :
  validateAddress "0x0000000000000000000000000000000000000000" = true.
Proof. reflexivity. Qed.

Example validateAddress_short :
  validateAddress "0x000000000000000000000000000000000000000" = false.
Proof. reflexivity. Qed.

Example validateAddress_upper :
  validateAddress "0xABCDEF0123456789ABCDEF0123456789ABCDEF01" = true.
Proof. reflexivity. Qed.

Lemma validateAddress_iff_well_formed_witness :
  well_formed_address "0xABCDEF0123456789abcdef0123456789ABCDEF01".
Proof.
  apply (proj1 (validateAddress_iff_well_formed
                  "0xABCDEF0123456789abcdef0123456789ABCDEF01")).
  vm_compute. reflexivity.
Defined.

(** *** The registry object *)

Section AgentRegistry.

(** An [AgentEventHandler] is a [std::function] supplied by the caller;
    [Callable] is the type of what it can hold. *)
Variable Callable : Type.

(** A range-for over [agents_] visits every entry once, in an order the
    hash table chooses. *)
Variable iteration : gmap string AgentInfo -> list (string * AgentInfo).
Hypothesis iteration_perm : forall m, iteration m ≡ₚ map_to_list m.

(** [class AgentRegistry], its private members. *)
Record AgentRegistry : Type := mkAgentRegistry {
  configPath_ : string;
  agents_ : gmap string AgentInfo;
  tokens_ : gmap string TokenInfo;
  eventHandler_ : option Callable       (* [None]: an empty std::function *)
}.

(** One call of the handler: the callable, its two arguments, and the
    agents map as the registry holds it while the handler runs. The
    handler's own body is the caller's; it is taken not to call back into
    the registry. *)
Record HandlerCall : Type := mkHandlerCall {
  hc_handler : Callable;
  hc_agent : string;
  hc_action : string;
  hc_visible : gmap string AgentInfo
}.

(** Whether a call of the handler ends in an exception instead of
    returning: that is up to the callable the caller installed. *)
Variable handler_throws : HandlerCall -> bool.

(** How a method that calls the handler ends: it returns a value, or the
    exception of the handler call [call] leaves it (nothing in the registry
    catches). *)
Inductive outcome (A : Type) : Type :=
| Returned (a : A)
| Threw (call : HandlerCall).

Arguments Returned {A}.
Arguments Threw {A}.

(** [AgentRegistry::notifyAgentEvent]: how it ends and the calls it makes. *)
Definition notifyAgentEvent (r : AgentRegistry) (agent action : string)
  : outcome unit * list HandlerCall :=
  match eventHandler_ r with
  | Some h =>
      let call := mkHandlerCall h agent action (agents_ r) in
      (if handler_throws call then Threw call else Returned tt, [call])
  | None => (Returned tt, [])
  end.

(** [AgentRegistry::setAgentEventHandler] *)
Definition setAgentEventHandler (handler : option Callable)
           (r : AgentRegistry) : AgentRegistry :=
  {| configPath_ := configPath_ r;
     agents_ := agents_ r;
     tokens_ := tokens_ r;
     eventHandler_ := handler |}.

(** [AgentRegistry::registerAgent]: how it ends (the flag returned, or the
    handler's exception), the registry afterwards, and the handler calls
    made on the way. The entry is inserted before the handler is called, so
    it stays when the handler throws. *)
Definition registerAgent (name : string) (info : AgentInfo)
           (r : AgentRegistry)
  : outcome bool * AgentRegistry * list HandlerCall :=
  match agents_ r !! name with
  | Some _ => (Returned false, r, [])
  | None =>
      if negb (validateAddress (address info)) then (Returned false, r, [])
      else
        let r' := {| configPath_ := configPath_ r;
                     agents_ := <[name := info]> (agents_ r);
                     tokens_ := tokens_ r;
                     eventHandler_ := eventHandler_ r |} in
        match notifyAgentEvent r' name "registered" with
        | (Returned _, calls) => (Returned true, r', calls)
        | (Threw call, calls) => (Threw call, r', calls)
        end
  end.

(** [std::find(v.begin(), v.end(), x) != v.end()] *)
Definition contains (v : list string) (x : string) : bool :=
  existsb (fun y => String.eqb y x) v.

(** The loop of [hasPermission] over the entries in visiting order: the
    first entry with the address decides. *)
Fixpoint permission_scan (entries : list (string * AgentInfo))
         (agentAddress permission : string) : bool :=
  match entries with
  | [] => false
  | (_, info) :: rest =>
      if String.eqb (address info) agentAddress
      then contains (permissions info) permission
      else permission_scan rest agentAddress permission
  end.

(** [AgentRegistry::hasPermission] *)
Definition hasPermission (r : AgentRegistry)
           (agentAddress permission : string) : bool :=
  permission_scan (iteration (agents_ r)) agentAddress permission.

(** [AgentRegistry::isRegisteredAgent] *)
Definition isRegisteredAgent (r : AgentRegistry) (addr : string) : bool :=
  existsb (fun e => String.eqb (address (snd e)) addr)
          (iteration (agents_ r)).

(** [AgentRegistry::getAgentAddress] *)
Definition getAgentAddress (r : AgentRegistry) (name : string) : string :=
  match agents_ r !! name with
  | Some info => address info
  | None => ""
  end.

(** [AgentRegistry::getAgentPermissions] *)
Definition getAgentPermissions (r : AgentRegistry) (name : string)
  : list string :=
  match agents_ r !! name with
  | Some info => permissions info
  | None => []
  end.

(** [AgentRegistry::getTokenAddress] *)
Definition getTokenAddress (r : AgentRegistry) (symbol : string) : string :=
  match tokens_ r !! symbol with
  | Some info => tokenAddress info
  | None => ""
  end.

(** [AgentRegistry::getTokenInfo]; [TokenInfo{}] is value-initialised. *)
Definition getTokenInfo (r : AgentRegistry) (symbol : string) : TokenInfo :=
  match tokens_ r !! symbol with
  | Some info => info
  | None => mkTokenInfo "" 0 0
  end.

(** "Some registered agent has address [addr] and lists [perm]". *)
Definition registered_with (r : AgentRegistry) (addr perm : string) : Prop :=
  exists name info,
    agents_ r !! name = Some info /\
    address info = addr /\
    In perm (permissions info).

(** "No registered agent has address [addr]". *)
Definition address_unknown (r : AgentRegistry) (addr : string) : Prop :=
  forall name info, agents_ r !! name = Some info -> address info <> addr.

(** "At most one registered agent has address [addr]". *)
Definition address_unshared (r : AgentRegistry) (addr : string) : Prop :=
  forall n1 i1 n2 i2,
    agents_ r !! n1 = Some i1 -> agents_ r !! n2 = Some i2 ->
    address i1 = addr -> address i2 = addr -> n1 = n2.

(** *** Facts about the permission loop *)

Lemma contains_In (v : list string) (x : string) :
  contains v x = true <-> In x v.
Proof.
  unfold contains. rewrite existsb_exists. split.
  - intros (y & Hy & Heq). apply String.eqb_eq in Heq. subst y. exact Hy.
  - intros Hx. exists x. split; [exact Hx|apply String.eqb_refl].
Qed.

Lemma iteration_lookup (m : gmap string AgentInfo) (name : string)
      (info : AgentInfo) :
  In (name, info) (iteration m) <-> m !! name = Some info.
Proof.
  rewrite <- list_elem_of_In, (iteration_perm m).
  apply elem_of_map_to_list.
Qed.

Lemma permission_scan_true (entries : list (string * AgentInfo))
      (addr perm : string) :
  permission_scan entries addr perm = true ->
  exists name info,
    In (name, info) entries /\ address info = addr /\ In perm (permissions info).
Proof.
  induction entries as [|[name info] rest IH]; cbn [permission_scan].
  - discriminate.
  - destruct (String.eqb (address info) addr) eqn:Haddr.
    + intros Hc. apply String.eqb_eq in Haddr. apply contains_In in Hc.
      exists name, info. split; [left; reflexivity|]. split; assumption.
    + intros Hs. destruct (IH Hs) as (n & i & Hin & Ha & Hp).
      exists n, i. split; [right; exact Hin|]. split; assumption.
Qed.

Lemma permission_scan_unknown (entries : list (string * AgentInfo))
      (addr perm : string) :
  (forall name info, In (name, info) entries -> address info <> addr) ->
  permission_scan entries addr perm = false.
Proof.
  induction entries as [|[name info] rest IH]; cbn [permission_scan];
    intros Hnone; [reflexivity|].
  destruct (String.eqb (address info) addr) eqn:Haddr.
  - apply String.eqb_eq in Haddr.
    exfalso. apply (Hnone name info); [left; reflexivity|exact Haddr].
  - apply IH. intros n i Hin. apply (Hnone n i). right. exact Hin.
Qed.

Lemma permission_scan_unshared (entries : list (string * AgentInfo))
      (addr perm name : string) (info : AgentInfo) :
  (forall n i, In (n, i) entries -> address i = addr -> (n, i) = (name, info)) ->
  In (name, info) entries ->
  address info = addr ->
  In perm (permissions info) ->
  permission_scan entries addr perm = true.
Proof.
  induction entries as [|[n i] rest IH]; cbn [permission_scan];
    intros Hone Hin Haddr Hperm; [destruct Hin|].
  destruct (String.eqb (address i) addr) eqn:Hi.
  - apply String.eqb_eq in Hi.
    assert ((n, i) = (name, info)) as Heq
        by (apply Hone; [left; reflexivity|exact Hi]).
    injection Heq as -> ->. apply contains_In, Hperm.
  - apply String.eqb_neq in Hi.
    destruct Hin as [Hhead|Htail].
    + injection Hhead as -> ->. contradiction.
    + apply IH; try assumption.
      intros n' i' Hin' Ha'. apply Hone; [right; exact Hin'|exact Ha'].
Qed.

Lemma permission_scan_first (entries : list (string * AgentInfo))
      (addr perm : string) :
  permission_scan entries addr perm = true <->
  exists before name info after,
    entries = (before ++ (name, info) :: after)%list /\
    (forall e, In e before -> address (snd e) <> addr) /\
    address info = addr /\
    In perm (permissions info).
Proof.
  induction entries as [|[n i] rest IH]; cbn [permission_scan].
  - split; [discriminate|].
    intros (before & name & info & after & Heq & _).
    destruct before; discriminate.
  - destruct (String.eqb (address i) addr) eqn:Hi.
    + apply String.eqb_eq in Hi. rewrite contains_In. split.
      * intros Hp. exists [], n, i, rest.
        split; [reflexivity|]. split; [intros e []|]. split; assumption.
      * intros (before & name & info & after & Heq & Hbefore & Ha & Hp).
        destruct before as [|e before].
        -- injection Heq as -> -> _. exact Hp.
        -- injection Heq as He _. subst e. exfalso.
           apply (Hbefore (n, i)); [left; reflexivity|exact Hi].
    + apply String.eqb_neq in Hi. rewrite IH. split.
      * intros (before & name & info & after & -> & Hbefore & Ha & Hp).
        exists ((n, i) :: before), name, info, after.
        split; [reflexivity|]. split; [|split; assumption].
        intros e [Hhead|He]; [subst e; exact Hi|apply Hbefore, He].
      * intros (before & name & info & after & Heq & Hbefore & Ha & Hp).
        destruct before as [|e before].
        -- injection Heq as -> -> _. contradiction.
        -- injection Heq as He Hrest. subst e rest.
           exists before, name, info, after.
           split; [reflexivity|]. split; [|split; assumption].
           intros e He. apply Hbefore. right. exact He.
Qed.

(** *** Properties of the registry *)

(** C3, as the code has it. [registerAgent name info] returns false, leaves
    the registry as it was and calls no handler when [name] is already
    registered or [info.address] fails validation. Otherwise the agents map
    becomes the old one with [name] bound to [info], and the installed
    handler is called exactly once, with [name] and ["registered"], while
    the new entry is already in the map (no call when no handler is
    installed); the method then returns true if the handler returned, and
    if the handler threw, its exception leaves [registerAgent] with the
    entry inserted. Either way, registering the same name again returns
    false, changes nothing and calls nothing. *)
Theorem registerAgent_spec (name : string) (info : AgentInfo)
        (r : AgentRegistry) :
  ((is_Some (agents_ r !! name) \/ validateAddress (address info) = false) ->
   registerAgent name info r = (Returned false, r, [])) /\
  (agents_ r !! name = None -> validateAddress (address info) = true ->
   exists out r' calls,
     registerAgent name info r = (out, r', calls) /\
     agents_ r' = <[name := info]> (agents_ r) /\
     tokens_ r' = tokens_ r /\
     eventHandler_ r' = eventHandler_ r /\
     configPath_ r' = configPath_ r /\
     (forall h, eventHandler_ r = Some h ->
                calls = [mkHandlerCall h name "registered" (agents_ r')] /\
                agents_ r' !! name = Some info /\
                out = if handler_throws
                           (mkHandlerCall h name "registered" (agents_ r'))
                      then Threw (mkHandlerCall h name "registered" (agents_ r'))
                      else Returned true) /\
     (eventHandler_ r = None -> calls = [] /\ out = Returned true) /\
     (forall info', registerAgent name info' r' = (Returned false, r', []))).
Proof.
  split.
  - intros [[old Hold]|Hbad]; unfold registerAgent.
    + rewrite Hold. reflexivity.
    + destruct (agents_ r !! name); [reflexivity|].
      rewrite Hbad. reflexivity.
  - intros Hfresh Hvalid. unfold registerAgent at 1.
    rewrite Hfresh, Hvalid. cbn [negb].
    unfold notifyAgentEvent. cbn [eventHandler_ agents_].
    destruct (eventHandler_ r) as [h|] eqn:Hh.
    + destruct (handler_throws _) eqn:Hthrow;
        (eexists; eexists; eexists; split; [reflexivity|]);
        cbn [agents_ tokens_ eventHandler_ configPath_];
        (split; [reflexivity|]); (split; [reflexivity|]);
        (split; [reflexivity|]); (split; [reflexivity|]);
        (split; [|split]);
        try (intros Hnone; discriminate Hnone);
        try (intros info'; unfold registerAgent; cbn [agents_];
             rewrite lookup_insert_eq; reflexivity);
        intros h' [= <-]; rewrite Hthrow;
        (split; [reflexivity|]); (split; [apply lookup_insert_eq|reflexivity]).
    + eexists; eexists; eexists; split; [reflexivity|].
      cbn [agents_ tokens_ eventHandler_ configPath_].
      split; [reflexivity|]. split; [reflexivity|].
      split; [reflexivity|]. split; [reflexivity|].
      split; [|split].
      * intros h' Hh'. discriminate Hh'.
      * intros _. split; reflexivity.
      * intros info'. unfold registerAgent. cbn [agents_].
        rewrite lookup_insert_eq. reflexivity.
Qed.

(** C4, as the code has it. [hasPermission addr perm] returns true only if
    some registered agent has address [addr] and lists [perm]; it returns
    false whenever no registered agent has that address; it returns true
    exactly when the first entry with address [addr], in the order the loop
    visits the map, lists [perm]; and when at most one registered agent has
    address [addr] it returns true if and only if that agent lists [perm]. *)
Theorem hasPermission_first_holder (r : AgentRegistry) (addr perm : string) :
  (hasPermission r addr perm = true -> registered_with r addr perm) /\
  (address_unknown r addr -> hasPermission r addr perm = false) /\
  (hasPermission r addr perm = true <->
   exists before name info after,
     iteration (agents_ r) = (before ++ (name, info) :: after)%list /\
     (forall e, In e before -> address (snd e) <> addr) /\
     address info = addr /\
     In perm (permissions info)) /\
  (address_unshared r addr ->
   (hasPermission r addr perm = true <-> registered_with r addr perm)).
Proof.
  assert (hasPermission r addr perm = true -> registered_with r addr perm)
    as Hsound.
  { intros Hs. apply permission_scan_true in Hs as (n & i & Hin & Ha & Hp).
    exists n, i. split; [apply iteration_lookup, Hin|]. split; assumption. }
  split; [exact Hsound|]. split; [|split].
  - intros Hnone. apply permission_scan_unknown.
    intros n i Hin. apply (Hnone n i). apply iteration_lookup, Hin.
  - apply permission_scan_first.
  - intros Hone. split; [exact Hsound|].
    intros (name & info & Hreg & Ha & Hp).
    apply (permission_scan_unshared _ _ _ name info); try assumption.
    + intros n i Hin Hi. apply iteration_lookup in Hin.
      assert (n = name) as -> by (apply (Hone n i name info); assumption).
      rewrite Hreg in Hin. injection Hin as ->. reflexivity.
    + apply iteration_lookup, Hreg.
Qed.

End AgentRegistry.

Arguments mkAgentRegistry {Callable}.
Arguments configPath_ {Callable}.
Arguments agents_ {Callable}.
Arguments tokens_ {Callable}.
Arguments eventHandler_ {Callable}.
Arguments mkHandlerCall {Callable}.
Arguments Returned {Callable A}.
Arguments Threw {Callable A}.
Arguments notifyAgentEvent {Callable}.
Arguments setAgentEventHandler {Callable}.
Arguments registerAgent {Callable}.
Arguments hasPermission {Callable}.
Arguments isRegisteredAgent {Callable}.
Arguments getAgentAddress {Callable}.
Arguments getAgentPermissions {Callable}.
Arguments getTokenAddress {Callable}.
Arguments getTokenInfo {Callable}.
Arguments registered_with {Callable}.
Arguments address_unknown {Callable}.
Arguments address_unshared {Callable}.

(** *** Sample registries *)

Definition addr_a : string := "0xaaaaaaaaaaaaaaaaaaaaaaaaaaaaaaaaaaaaaaaa".

Definition alice : AgentInfo := mkAgentInfo addr_a "dreamer" ["propose"].

(** A second agent configured with alice's address. *)
Definition bob : AgentInfo := mkAgentInfo addr_a "validator" ["vote"].

(** No agents, no tokens, one handler installed. *)
Definition empty_registry : AgentRegistry unit :=
  mkAgentRegistry "agents.json" ∅ ∅ (Some tt).

Definition solo_registry : AgentRegistry unit :=
  mkAgentRegistry "agents.json" {[ "alice" := alice ]} ∅ None.

Definition shared_registry : AgentRegistry unit :=
  mkAgentRegistry "agents.json" (<["alice" := alice]> {[ "bob" := bob ]}) ∅ None.

(** A handler that always returns, and one that always throws. *)
Definition calm : HandlerCall unit -> bool := fun _ => false.

Definition angry : HandlerCall unit -> bool := fun _ => true.

Example registerAgent_alice :
  registerAgent calm "alice" alice empty_registry =
  (Returned true,
   mkAgentRegistry "agents.json" {[ "alice" := alice ]} ∅ (Some tt),
   [mkHandlerCall tt "alice" "registered" {[ "alice" := alice ]}]).
Proof. reflexivity. Qed.

Example registerAgent_bad_address :
  registerAgent calm "zed" (mkAgentInfo "0xZZZ" "dreamer" []) empty_registry =
  (Returned false, empty_registry, []).
Proof. reflexivity. Qed.

(** C3 as worded fails when the installed handler throws: alice's name is
    free and her address is valid, the entry is inserted and the handler is
    called once, but [registerAgent] does not return true: the handler's
    exception leaves it. *)
Lemma registerAgent_handler_throws :
  agents_ empty_registry !! "alice" = None /\
  validateAddress (address alice) = true /\
  registerAgent angry "alice" alice empty_registry =
  (Threw (mkHandlerCall tt "alice" "registered" {[ "alice" := alice ]}),
   mkAgentRegistry "agents.json" {[ "alice" := alice ]} ∅ (Some tt),
   [mkHandlerCall tt "alice" "registered" {[ "alice" := alice ]}]) /\
  fst (fst (registerAgent angry "alice" alice empty_registry)) <>
  Returned true.
Proof.
  split; [reflexivity|]. split; [vm_compute; reflexivity|].
  split; [reflexivity|]. discriminate.
Qed.

Lemma registerAgent_spec_witness :
  (agents_ empty_registry !! "alice" = None /\
   validateAddress (address alice) = true /\
   (exists r',
      registerAgent calm "alice" alice empty_registry =
      (Returned true, r',
       [mkHandlerCall tt "alice" "registered" (agents_ r')]) /\
      registerAgent calm "alice" bob r' = (Returned false, r', [])) /\
   (exists r',
      registerAgent angry "alice" alice empty_registry =
      (Threw (mkHandlerCall tt "alice" "registered" (agents_ r')), r',
       [mkHandlerCall tt "alice" "registered" (agents_ r')]) /\
      agents_ r' !! "alice" = Some alice /\
      registerAgent angry "alice" bob r' = (Returned false, r', []))) /\
  (validateAddress "0xZZZ" = false /\
   registerAgent calm "zed" (mkAgentInfo "0xZZZ" "dreamer" []) empty_registry =
   (Returned false, empty_registry, [])).
Proof.
  assert (agents_ empty_registry !! "alice" = None) as Hfresh by reflexivity.
  assert (validateAddress (address alice) = true) as Hvalid
      by (vm_compute; reflexivity).
  assert (validateAddress "0xZZZ" = false) as Hbad
      by (vm_compute; reflexivity).
  split.
  - split; [exact Hfresh|]. split; [exact Hvalid|]. split.
    + destruct (proj2 (registerAgent_spec unit calm "alice" alice
                                          empty_registry)
                      Hfresh Hvalid)
        as (out & r' & calls & Hreg & _ & _ & _ & _ & Hcall & _ & Hagain).
      exists r'. destruct (Hcall tt eq_refl) as (Hcalls & _ & Hout).
      rewrite Hreg, Hcalls, Hout. split; [reflexivity|apply Hagain].
    + destruct (proj2 (registerAgent_spec unit angry "alice" alice
                                          empty_registry)
                      Hfresh Hvalid)
        as (out & r' & calls & Hreg & _ & _ & _ & _ & Hcall & _ & Hagain).
      exists r'. destruct (Hcall tt eq_refl) as (Hcalls & Hseen & Hout).
      rewrite Hreg, Hcalls, Hout.
      split; [reflexivity|]. split; [exact Hseen|apply Hagain].
  - split; [exact Hbad|].
    exact (proj1 (registerAgent_spec
                    unit calm "zed" (mkAgentInfo "0xZZZ" "dreamer" [])
                    empty_registry)
                 (or_intror Hbad)).
Defined.

Lemma solo_registry_unshared : address_unshared solo_registry addr_a.
Proof.
  intros n1 i1 n2 i2 H1 H2 _ _. cbn [solo_registry agents_] in H1, H2.
  apply lookup_singleton_Some in H1 as [<- _].
  apply lookup_singleton_Some in H2 as [<- _].
  reflexivity.
Defined.

Definition addr_b : string := "0xbbbbbbbbbbbbbbbbbbbbbbbbbbbbbbbbbbbbbbbb".

Lemma solo_registry_unknown : address_unknown solo_registry addr_b.
Proof.
  intros n i Hn. cbn [solo_registry agents_] in Hn.
  apply lookup_singleton_Some in Hn as [_ <-]. discriminate.
Defined.

Lemma hasPermission_first_holder_witness :
  (address_unshared solo_registry addr_a /\
   (hasPermission map_to_list solo_registry addr_a "propose" = true <->
    registered_with solo_registry addr_a "propose")) /\
  (address_unknown solo_registry addr_b /\
   hasPermission map_to_list solo_registry addr_b "propose" = false).
Proof.
  split.
  - split; [exact solo_registry_unshared|].
    exact (proj2 (proj2 (proj2
             (hasPermission_first_holder unit map_to_list
                (fun m => reflexivity (R := Permutation) (map_to_list m))
                solo_registry addr_a "propose")))
             solo_registry_unshared).
  - split; [exact solo_registry_unknown|].
    exact (proj1 (proj2
             (hasPermission_first_holder unit map_to_list
                (fun m => reflexivity (R := Permutation) (map_to_list m))
                solo_registry addr_b "propose"))
             solo_registry_unknown).
Defined.

(** C4 as worded fails once two agents share an address: alice lists
    ["propose"], bob lists ["vote"], and whichever of the two the loop meets
    first hides the other's permission. No visiting order makes
    "true iff some registered agent with that address lists the permission"
    hold on [shared_registry]. *)
Lemma hasPermission_shared_address :
  ~ exists iteration : gmap string AgentInfo -> list (string * AgentInfo),
      (forall m, iteration m ≡ₚ map_to_list m) /\
      forall addr perm,
        hasPermission iteration shared_registry addr perm = true <->
        registered_with shared_registry addr perm.
Proof.
  intros (iteration & Hperm & Hclaim).
  assert (registered_with shared_registry addr_a "propose") as Hpropose.
  { exists "alice", alice. split; [reflexivity|].
    split; [reflexivity|left; reflexivity]. }
  assert (registered_with shared_registry addr_a "vote") as Hvote.
  { exists "bob", bob. split; [reflexivity|].
    split; [reflexivity|left; reflexivity]. }
  apply Hclaim in Hpropose, Hvote.
  unfold hasPermission in Hpropose, Hvote.
  specialize (Hperm (agents_ shared_registry)).
  assert (exists e1 e2, map_to_list (agents_ shared_registry) = [e1; e2] /\
                        address (snd e1) = addr_a /\ address (snd e2) = addr_a /\
                        (contains (permissions (snd e1)) "vote" = false /\
                         contains (permissions (snd e2)) "propose" = false \/
                         contains (permissions (snd e1)) "propose" = false /\
                         contains (permissions (snd e2)) "vote" = false))
    as (e1 & e2 & Hlist & Ha1 & Ha2 & Hhide).
  { eexists. eexists. split; [vm_compute; reflexivity|].
    vm_compute. auto. }
  rewrite Hlist in Hperm. symmetry in Hperm.
  apply Permutation_length_2_inv in Hperm.
  destruct e1 as [n1 i1], e2 as [n2 i2]. cbn [snd] in *.
  destruct Hperm as [Horder|Horder]; rewrite Horder in Hpropose, Hvote;
    cbn [permission_scan] in Hpropose, Hvote;
    rewrite ?Ha1, ?Ha2, String.eqb_refl in Hpropose, Hvote;
    destruct Hhide as [[H1 H2]|[H1 H2]]; congruence.
Qed.

(** *** Further properties of the registry *)

Arguments hc_handler {Callable}.
Arguments hc_agent {Callable}.
Arguments hc_action {Callable}.
Arguments hc_visible {Callable}.

Section RegistryFacts.

Variable Callable : Type.
Variable iteration : gmap string AgentInfo -> list (string * AgentInfo).
Hypothesis iteration_perm : forall m, iteration m ≡ₚ map_to_list m.
Variable handler_throws : HandlerCall Callable -> bool.

Implicit Types r : AgentRegistry Callable.

(** "Every registered agent has an address that passes validation". *)
Definition all_valid r : Prop :=
  forall name info,
    agents_ r !! name = Some info -> validateAddress (address info) = true.

(** A caller registering a list of agents one after the other, going on
    after a call from which the handler's exception came out: how each call
    ended, the registry at the end, and all handler calls in order. *)
Fixpoint register_all (items : list (string * AgentInfo)) r
  : list (outcome Callable bool) * AgentRegistry Callable
    * list (HandlerCall Callable) :=
  match items with
  | [] => ([], r, [])
  | (name, info) :: rest =>
      let '(ok, r1, calls1) := registerAgent handler_throws name info r in
      let '(oks, r2, calls2) := register_all rest r1 in
      (ok :: oks, r2, (calls1 ++ calls2)%list)
  end.

(** The registry after an accepted registration. *)
Definition inserted name info r : AgentRegistry Callable :=
  mkAgentRegistry (configPath_ r) (<[name := info]> (agents_ r))
                  (tokens_ r) (eventHandler_ r).

(** A call is refused and changes nothing, or it is accepted and inserts,
    whatever the handler then does. *)
Lemma registerAgent_cases name info r :
  registerAgent handler_throws name info r = (Returned false, r, []) \/
  agents_ r !! name = None /\
  validateAddress (address info) = true /\
  snd (fst (registerAgent handler_throws name info r)) = inserted name info r /\
  snd (registerAgent handler_throws name info r) =
  snd (notifyAgentEvent handler_throws (inserted name info r)
                        name "registered") /\
  fst (fst (registerAgent handler_throws name info r)) <> Returned false.
Proof.
  unfold registerAgent. fold (inserted name info r).
  destruct (agents_ r !! name); [left; reflexivity|].
  destruct (validateAddress (address info)); cbn [negb]; [|left; reflexivity].
  right. split; [reflexivity|]. split; [reflexivity|].
  destruct (notifyAgentEvent handler_throws (inserted name info r) name
                             "registered") as [[[]|call] calls];
    cbn [fst snd]; repeat split; discriminate.
Qed.

Lemma registerAgent_refused name info r :
  is_Some (agents_ r !! name) \/ validateAddress (address info) = false ->
  registerAgent handler_throws name info r = (Returned false, r, []).
Proof.
  unfold registerAgent. intros [[old ->]|Hbad]; [reflexivity|].
  destruct (agents_ r !! name); [reflexivity|]. rewrite Hbad. reflexivity.
Qed.

Lemma registerAgent_accepted name info r :
  agents_ r !! name = None -> validateAddress (address info) = true ->
  registerAgent handler_throws name info r =
  match eventHandler_ r with
  | Some h =>
      (if handler_throws
            (mkHandlerCall h name "registered" (<[name := info]> (agents_ r)))
       then Threw (mkHandlerCall h name "registered"
                                 (<[name := info]> (agents_ r)))
       else Returned true,
       inserted name info r,
       [mkHandlerCall h name "registered" (<[name := info]> (agents_ r))])
  | None => (Returned true, inserted name info r, [])
  end.
Proof.
  intros Hname Hvalid. unfold registerAgent, notifyAgentEvent, inserted.
  rewrite Hname, Hvalid. cbn [negb eventHandler_ agents_].
  destruct (eventHandler_ r) as [h|]; [|reflexivity].
  destruct (handler_throws _); reflexivity.
Qed.

Lemma registerAgent_true name info r r' calls :
  registerAgent handler_throws name info r = (Returned true, r', calls) ->
  agents_ r !! name = None /\
  validateAddress (address info) = true /\
  r' = inserted name info r /\
  calls = snd (notifyAgentEvent handler_throws r' name "registered").
Proof.
  intros Hreg.
  destruct (registerAgent_cases name info r)
    as [Hno|(Hname & Hvalid & Hstate & Hcalls & _)]; [congruence|].
  rewrite Hreg in Hstate, Hcalls. cbn [fst snd] in Hstate, Hcalls.
  subst r'. auto.
Qed.

Lemma isRegisteredAgent_lookup r addr :
  isRegisteredAgent iteration r addr = true <->
  exists name info, agents_ r !! name = Some info /\ address info = addr.
Proof.
  unfold isRegisteredAgent. rewrite existsb_exists. split.
  - intros ([name info] & Hin & Heq). cbn [snd] in Heq.
    apply String.eqb_eq in Heq. exists name, info.
    split; [apply (iteration_lookup iteration iteration_perm), Hin|exact Heq].
  - intros (name & info & Hreg & Heq). exists (name, info).
    split; [apply (iteration_lookup iteration iteration_perm), Hreg|].
    cbn [snd]. apply String.eqb_eq, Heq.
Qed.

Lemma permission_scan_registered (entries : list (string * AgentInfo))
      (addr perm : string) :
  permission_scan entries addr perm = true ->
  existsb (fun e => String.eqb (address (snd e)) addr) entries = true.
Proof.
  induction entries as [|[n i] rest IH]; cbn [permission_scan existsb snd];
    [discriminate|].
  destruct (String.eqb (address i) addr); [reflexivity|]. exact IH.
Qed.

Lemma validateAddress_empty : validateAddress "" = false.
Proof. reflexivity. Qed.

(** [isRegisteredAgent addr] is true exactly when some registered agent has
    address [addr], whatever the order in which the map is visited. *)
Theorem isRegisteredAgent_iff r addr :
  isRegisteredAgent iteration r addr = true <->
  exists name info, agents_ r !! name = Some info /\ address info = addr.
Proof.
  unfold isRegisteredAgent. rewrite existsb_exists. split.
  - intros ([name info] & Hin & Heq). cbn [snd] in Heq.
    apply String.eqb_eq in Heq. exists name, info.
    split; [|exact Heq].
    rewrite <- list_elem_of_In, (iteration_perm (agents_ r)) in Hin.
    apply elem_of_map_to_list in Hin. exact Hin.
  - intros (name & info & Hreg & Heq). exists (name, info).
    split; [|cbn [snd]; apply String.eqb_eq, Heq].
    rewrite <- list_elem_of_In, (iteration_perm (agents_ r)).
    apply elem_of_map_to_list. exact Hreg.
Qed.

(** An address that [isRegisteredAgent] does not know has no permission at
    all: [hasPermission] is false for it, for every permission name. *)
Theorem hasPermission_needs_registration r addr :
  isRegisteredAgent iteration r addr = false ->
  forall perm, hasPermission iteration r addr perm = false.
Proof.
  intros Hunknown perm. unfold hasPermission.
  destruct (permission_scan _ addr perm) eqn:Hscan; [|reflexivity].
  apply permission_scan_registered in Hscan.
  unfold isRegisteredAgent in Hunknown. congruence.
Qed.

(** After a [registerAgent] that returned true, the two name getters give
    back what was registered, the address is a registered and valid one, and
    the answers for every other name are what they were. *)
Theorem registerAgent_then_lookup name info r r' calls :
  registerAgent handler_throws name info r = (Returned true, r', calls) ->
  getAgentAddress r' name = address info /\
  getAgentPermissions r' name = permissions info /\
  validateAddress (getAgentAddress r' name) = true /\
  isRegisteredAgent iteration r' (address info) = true /\
  (forall other, other <> name ->
     getAgentAddress r' other = getAgentAddress r other /\
     getAgentPermissions r' other = getAgentPermissions r other).
Proof.
  intros Hreg. apply registerAgent_true in Hreg as (_ & Hvalid & -> & _).
  unfold getAgentAddress, getAgentPermissions. cbn [inserted agents_].
  rewrite lookup_insert_eq.
  split; [reflexivity|]. split; [reflexivity|]. split; [exact Hvalid|].
  split.
  - apply isRegisteredAgent_lookup. exists name, info. cbn [inserted agents_].
    split; [apply lookup_insert_eq|reflexivity].
  - intros other Hother. rewrite lookup_insert_ne by congruence.
    split; reflexivity.
Qed.

(** When the address being registered was not in use, the new agent is the
    only holder of it, and [hasPermission] on that address answers by the
    new agent's own permission list. *)
Theorem registerAgent_fresh_address name info r r' calls :
  registerAgent handler_throws name info r = (Returned true, r', calls) ->
  isRegisteredAgent iteration r (address info) = false ->
  forall perm,
    hasPermission iteration r' (address info) perm =
    contains (permissions info) perm.
Proof.
  intros Hreg Hfresh perm.
  apply registerAgent_true in Hreg as (Hname & _ & -> & _).
  assert (forall n i, In (n, i) (iteration (<[name := info]> (agents_ r))) ->
                      address i = address info -> (n, i) = (name, info))
    as Honly.
  { intros n i Hin Haddr.
    apply (iteration_lookup iteration iteration_perm) in Hin.
    destruct (decide (n = name)) as [->|Hne].
    - rewrite lookup_insert_eq in Hin. congruence.
    - rewrite lookup_insert_ne in Hin by congruence.
      assert (isRegisteredAgent iteration r (address info) = true) as Hused
          by (apply isRegisteredAgent_lookup; eauto).
      congruence. }
  unfold hasPermission. cbn [inserted agents_].
  destruct (contains (permissions info) perm) eqn:Hperm.
  - apply (permission_scan_unshared _ _ _ name info).
    + exact Honly.
    + apply (iteration_lookup iteration iteration_perm), lookup_insert_eq.
    + reflexivity.
    + apply contains_In, Hperm.
  - destruct (permission_scan _ (address info) perm) eqn:Hscan; [|reflexivity].
    apply permission_scan_true in Hscan as (n & i & Hin & Haddr & Hp).
    apply Honly in Hin; [|exact Haddr]. injection Hin as -> ->.
    apply contains_In in Hp. congruence.
Qed.

Lemma registerAgent_keeps_valid name info r :
  all_valid r ->
  all_valid (snd (fst (registerAgent handler_throws name info r))).
Proof.
  intros Hall.
  destruct (registerAgent_cases name info r)
    as [->|(_ & Hvalid & -> & _)]; [exact Hall|].
  intros n i. cbn [inserted agents_]. destruct (decide (n = name)) as [->|Hne].
  - rewrite lookup_insert_eq. intros [= <-]. exact Hvalid.
  - rewrite lookup_insert_ne by congruence. apply Hall.
Qed.

Lemma registerAgent_keeps_entries name info r :
  agents_ r ⊆ agents_ (snd (fst (registerAgent handler_throws name info r))) /\
  tokens_ (snd (fst (registerAgent handler_throws name info r))) = tokens_ r /\
  eventHandler_ (snd (fst (registerAgent handler_throws name info r))) =
  eventHandler_ r.
Proof.
  destruct (registerAgent_cases name info r)
    as [->|(Hname & _ & -> & _)].
  - split; [reflexivity|]. split; reflexivity.
  - cbn [inserted agents_ tokens_ eventHandler_].
    split; [apply insert_subseteq, Hname|]. split; reflexivity.
Qed.

Lemma register_all_cons name info rest r :
  register_all ((name, info) :: rest) r =
  (fst (fst (registerAgent handler_throws name info r))
     :: fst (fst (register_all rest (snd (fst (registerAgent handler_throws name info r))))),
   snd (fst (register_all rest (snd (fst (registerAgent handler_throws name info r))))),
   (snd (registerAgent handler_throws name info r)
      ++ snd (register_all rest (snd (fst (registerAgent handler_throws name info r)))))%list).
Proof.
  cbn [register_all].
  destruct (registerAgent handler_throws name info r) as [[ok r1] calls1]. cbn [fst snd].
  destruct (register_all rest r1) as [[oks r2] calls2]. reflexivity.
Qed.

(** [registerAgent] keeps the registry free of malformed addresses: if every
    agent of a registry has a valid address, this is still so after any
    series of [registerAgent] calls, accepted or not. *)
Theorem register_all_keeps_valid (items : list (string * AgentInfo)) :
  forall r, all_valid r -> all_valid (snd (fst (register_all items r))).
Proof.
  induction items as [|[name info] rest IH]; intros r Hall; [exact Hall|].
  rewrite register_all_cons. cbn [fst snd].
  apply IH, registerAgent_keeps_valid, Hall.
Qed.

(** In a registry whose agents all have valid addresses, the empty string
    returned by [getAgentAddress] means exactly "unknown name". *)
Theorem getAgentAddress_empty_iff_unknown r name :
  all_valid r ->
  (getAgentAddress r name = "" <-> agents_ r !! name = None).
Proof.
  intros Hall. unfold getAgentAddress.
  destruct (agents_ r !! name) as [info|] eqn:Hname.
  - split; [|discriminate]. intros Hempty.
    pose proof (Hall name info Hname) as Hvalid.
    rewrite Hempty, validateAddress_empty in Hvalid. discriminate.
  - split; reflexivity.
Qed.

(** No series of [registerAgent] calls removes or changes an agent that is
    already registered, and none touches the tokens or the handler. *)
Theorem register_all_keeps_entries (items : list (string * AgentInfo)) :
  forall r,
    agents_ r ⊆ agents_ (snd (fst (register_all items r))) /\
    tokens_ (snd (fst (register_all items r))) = tokens_ r /\
    eventHandler_ (snd (fst (register_all items r))) = eventHandler_ r.
Proof.
  induction items as [|[name info] rest IH]; intros r.
  - split; [reflexivity|]. split; reflexivity.
  - rewrite register_all_cons. cbn [fst snd].
    destruct (IH (snd (fst (registerAgent handler_throws name info r)))) as (Hsub & Htok & Hh).
    destruct (registerAgent_keeps_entries name info r) as (Hsub1 & Htok1 & Hh1).
    split; [etrans; eassumption|]. split; congruence.
Qed.

Lemma registerAgent_calls name info r call :
  In call (snd (registerAgent handler_throws name info r)) ->
  hc_agent call = name /\
  hc_action call = "registered" /\
  Some (hc_handler call) = eventHandler_ r /\
  agents_ r !! name = None /\
  hc_visible call =
  agents_ (snd (fst (registerAgent handler_throws name info r))) /\
  hc_visible call !! name = Some info.
Proof.
  destruct (registerAgent_cases name info r)
    as [->|(Hname & _ & -> & -> & _)]; [intros []|].
  unfold notifyAgentEvent. cbn [inserted eventHandler_ agents_].
  destruct (eventHandler_ r) as [h|]; [|intros []].
  cbn [snd]. intros [<-|[]].
  cbn [hc_agent hc_action hc_handler hc_visible].
  repeat (split; [reflexivity || exact Hname|]). apply lookup_insert_eq.
Qed.

Lemma registerAgent_calls_length name info r :
  (length (snd (registerAgent handler_throws name info r)) <= 1)%nat.
Proof.
  destruct (registerAgent_cases name info r)
    as [->|(_ & _ & _ & -> & _)]; [cbn; lia|].
  unfold notifyAgentEvent.
  destruct (eventHandler_ _); cbn; lia.
Qed.

Lemma register_all_calls_fresh (items : list (string * AgentInfo)) :
  forall r call,
    In call (snd (register_all items r)) ->
    agents_ r !! hc_agent call = None.
Proof.
  induction items as [|[name info] rest IH]; intros r call; [intros []|].
  rewrite register_all_cons. cbn [snd]. intros Hin.
  apply in_app_or in Hin as [Hin|Hin].
  - apply registerAgent_calls in Hin as (-> & _ & _ & Hname & _). exact Hname.
  - apply IH in Hin.
    destruct (registerAgent_keeps_entries name info r) as (Hsub & _).
    destruct (agents_ r !! hc_agent call) as [i|] eqn:Hold; [|reflexivity].
    apply (lookup_weaken _ _ _ _ Hold) in Hsub. congruence.
Qed.

(** Over any series of [registerAgent] calls, no name is announced to the
    handler twice, and every announcement is a ["registered"] one made to
    the installed handler at a moment when the announced agent is in the
    map. *)
Theorem register_all_announces_once (items : list (string * AgentInfo)) :
  forall r,
    NoDup (map hc_agent (snd (register_all items r))) /\
    (forall call,
       In call (snd (register_all items r)) ->
       hc_action call = "registered" /\
       Some (hc_handler call) = eventHandler_ r /\
       is_Some (hc_visible call !! hc_agent call) /\
       In (hc_agent call) (map fst items)).
Proof.
  induction items as [|[name info] rest IH]; intros r.
  - split; [constructor|intros call []].
  - rewrite register_all_cons. cbn [snd fst map].
    set (r1 := snd (fst (registerAgent handler_throws name info r))).
    destruct (IH r1) as [Hnodup Hcalls]. split.
    + rewrite map_app. apply NoDup_app. split; [|split; [|exact Hnodup]].
      * destruct (snd (registerAgent handler_throws name info r)) as [|c1 [|c2 cs]] eqn:Hc.
        -- constructor.
        -- apply NoDup_singleton.
        -- pose proof (registerAgent_calls_length name info r) as Hlen.
           rewrite Hc in Hlen. cbn [length] in Hlen. lia.
      * intros agent Hfirst Hlater.
        apply list_elem_of_In, in_map_iff in Hfirst as (c1 & <- & Hc1).
        apply list_elem_of_In, in_map_iff in Hlater as (c2 & Heq & Hc2).
        pose proof (registerAgent_calls _ _ _ _ Hc1)
          as (Hagent & _ & _ & _ & Hvis & Hseen).
        apply register_all_calls_fresh in Hc2. fold r1 in Hvis.
        rewrite Heq, Hagent, <- Hvis, Hseen in Hc2. discriminate.
    + intros call Hin. apply in_app_or in Hin as [Hin|Hin].
      * apply registerAgent_calls in Hin as (-> & Hact & Hh & _ & _ & Hseen).
        split; [exact Hact|]. split; [exact Hh|].
        split; [eauto|left; reflexivity].
      * destruct (Hcalls call Hin) as (Hact & Hh & Hseen & Hname).
        destruct (registerAgent_keeps_entries name info r) as (_ & _ & Hsame).
        fold r1 in Hsame. rewrite Hsame in Hh.
        split; [exact Hact|]. split; [exact Hh|].
        split; [exact Hseen|right; exact Hname].
Qed.

(** Installing a handler replaces the previous one for good: afterwards
    [registerAgent] accepts or refuses and inserts exactly as it would have,
    it makes one call when it accepts and the new handler is not empty and
    none otherwise, and every call goes to the handler just installed. How
    the call ends follows the new handler: it returns what it would have
    returned whenever neither handler throws, and when the new handler
    throws, that exception leaves [registerAgent]. *)
Theorem setAgentEventHandler_replaces (h : option Callable) name info r :
  agents_ (snd (fst (registerAgent handler_throws name info
                                   (setAgentEventHandler h r)))) =
  agents_ (snd (fst (registerAgent handler_throws name info r))) /\
  eventHandler_ (snd (fst (registerAgent handler_throws name info
                                         (setAgentEventHandler h r)))) = h /\
  length (snd (registerAgent handler_throws name info
                             (setAgentEventHandler h r))) =
  (if bool_decide (agents_ r !! name = None)
      && validateAddress (address info)
   then length (option_list h) else 0%nat) /\
  (forall call,
     In call (snd (registerAgent handler_throws name info
                                 (setAgentEventHandler h r))) ->
     Some (hc_handler call) = h /\
     (fst (fst (registerAgent handler_throws name info
                              (setAgentEventHandler h r))) =
      if handler_throws call then Threw call else Returned true)) /\
  ((forall call,
      In call (snd (registerAgent handler_throws name info
                                  (setAgentEventHandler h r))) ->
      handler_throws call = false) ->
   (forall call,
      In call (snd (registerAgent handler_throws name info r)) ->
      handler_throws call = false) ->
   fst (fst (registerAgent handler_throws name info
                           (setAgentEventHandler h r))) =
   fst (fst (registerAgent handler_throws name info r))).
Proof.
  destruct (agents_ r !! name) as [old|] eqn:Hname.
  - rewrite bool_decide_eq_false_2 by discriminate. cbn [andb].
    rewrite !registerAgent_refused
      by (left; cbn [setAgentEventHandler agents_]; rewrite Hname; eauto).
    cbn [fst snd length]. repeat (split; [reflexivity|]).
    split; [intros call []|reflexivity].
  - rewrite bool_decide_eq_true_2 by reflexivity. cbn [andb].
    destruct (validateAddress (address info)) eqn:Hvalid.
    + rewrite !registerAgent_accepted by assumption.
      cbn [setAgentEventHandler agents_ eventHandler_ configPath_ tokens_].
      destruct h as [h|].
      * cbn [fst snd inserted agents_ eventHandler_ option_list length].
        split; [destruct (eventHandler_ r); reflexivity|].
        split; [reflexivity|]. split; [reflexivity|]. split.
        -- intros call [<-|[]]. split; reflexivity.
        -- intros Hnew Hold. rewrite (Hnew _ (or_introl eq_refl)).
           destruct (eventHandler_ r) as [h0|]; [|reflexivity].
           cbn [fst snd] in *. rewrite (Hold _ (or_introl eq_refl)).
           reflexivity.
      * cbn [fst snd inserted agents_ eventHandler_ option_list length].
        split; [destruct (eventHandler_ r); reflexivity|].
        split; [reflexivity|]. split; [reflexivity|].
        split; [intros call []|].
        intros _ Hold.
        destruct (eventHandler_ r) as [h0|]; [|reflexivity].
        cbn [fst snd] in *. rewrite (Hold _ (or_introl eq_refl)).
        reflexivity.
    + rewrite !registerAgent_refused by (right; exact Hvalid).
      cbn [fst snd length]. repeat (split; [reflexivity|]).
      split; [intros call []|reflexivity].
Qed.

(** The two token getters agree: [getTokenAddress] is the address field of
    [getTokenInfo] for every symbol, and for an unknown symbol they give the
    empty address and a zeroed [TokenInfo]. *)
Theorem token_getters_agree r symbol :
  getTokenAddress r symbol = tokenAddress (getTokenInfo r symbol) /\
  (tokens_ r !! symbol = None ->
   getTokenAddress r symbol = "" /\
   getTokenInfo r symbol = mkTokenInfo "" 0 0).
Proof.
  unfold getTokenAddress, getTokenInfo.
  destruct (tokens_ r !! symbol); split; try reflexivity; try discriminate.
  intros _. split; reflexivity.
Qed.

End RegistryFacts.

Arguments all_valid {Callable}.
Arguments register_all {Callable}.

(** *** Sample uses of the further properties *)

Definition carol : AgentInfo := mkAgentInfo addr_b "oracle" ["vote"; "read"].

Definition map_to_list_perm (m : gmap string AgentInfo) :
  map_to_list m ≡ₚ map_to_list m := reflexivity (map_to_list m).

Lemma solo_registry_valid : all_valid solo_registry.
Proof.
  intros n i Hn. cbn [solo_registry agents_] in Hn.
  apply lookup_singleton_Some in Hn as [_ <-]. vm_compute. reflexivity.
Defined.

Lemma isRegisteredAgent_iff_witness :
  exists name info,
    agents_ solo_registry !! name = Some info /\ address info = addr_a.
Proof.
  apply (proj1 (isRegisteredAgent_iff unit map_to_list map_to_list_perm
                                      solo_registry addr_a)).
  vm_compute. reflexivity.
Defined.

Lemma hasPermission_needs_registration_witness :
  hasPermission map_to_list solo_registry addr_b "propose" = false.
Proof.
  apply (hasPermission_needs_registration unit map_to_list
                                          solo_registry addr_b).
  vm_compute. reflexivity.
Defined.

Lemma registerAgent_then_lookup_witness :
  getAgentAddress
    (mkAgentRegistry "agents.json" {[ "alice" := alice ]} ∅ (Some tt)) "alice"
  = addr_a.
Proof.
  apply (registerAgent_then_lookup
           unit map_to_list map_to_list_perm calm "alice" alice empty_registry
           (mkAgentRegistry "agents.json" {[ "alice" := alice ]} ∅ (Some tt))
           [mkHandlerCall tt "alice" "registered" {[ "alice" := alice ]}]).
  reflexivity.
Defined.

Definition duo_registry : AgentRegistry unit :=
  mkAgentRegistry "agents.json" (<["carol" := carol]> {[ "alice" := alice ]})
                  ∅ None.

Lemma registerAgent_fresh_address_witness :
  hasPermission map_to_list duo_registry addr_b "read"
  = contains (permissions carol) "read".
Proof.
  apply (registerAgent_fresh_address
           unit map_to_list map_to_list_perm calm "carol" carol solo_registry
           duo_registry []).
  - reflexivity.
  - vm_compute. reflexivity.
Defined.

Lemma register_all_keeps_valid_witness :
  all_valid
    (snd (fst (register_all
                 angry
                 [("carol", carol);
                  ("zed", mkAgentInfo "0xZZZ" "dreamer" []);
                  ("alice", bob)]
                 solo_registry))).
Proof.
  apply (register_all_keeps_valid unit angry). exact solo_registry_valid.
Defined.

Lemma getAgentAddress_empty_iff_unknown_witness :
  getAgentAddress solo_registry "bob" = "" <->
  agents_ solo_registry !! "bob" = None.
Proof.
  apply (getAgentAddress_empty_iff_unknown unit solo_registry "bob").
  exact solo_registry_valid.
Defined.

Lemma register_all_announces_once_witness :
  hc_action (mkHandlerCall tt "alice" "registered" {[ "alice" := alice ]})
  = "registered".
Proof.
  apply (proj2 (register_all_announces_once
                  unit angry [("alice", alice); ("alice", bob)]
                  empty_registry)).
  left. reflexivity.
Defined.

(** A registry with handler 3 installed, and a behaviour under which
    handler 3 throws and every other handler returns. *)
Definition numbered_registry : AgentRegistry nat :=
  mkAgentRegistry "agents.json" ∅ ∅ (Some 3%nat).

Definition three_throws : HandlerCall nat -> bool :=
  fun call => Nat.eqb (hc_handler call) 3.

Lemma setAgentEventHandler_replaces_witness :
  (registerAgent three_throws "alice" alice numbered_registry =
   (Threw (mkHandlerCall 3%nat "alice" "registered" {[ "alice" := alice ]}),
    mkAgentRegistry "agents.json" {[ "alice" := alice ]} ∅ (Some 3%nat),
    [mkHandlerCall 3%nat "alice" "registered" {[ "alice" := alice ]}]) /\
   fst (fst (registerAgent three_throws "alice" alice
                           (setAgentEventHandler (Some 7%nat)
                                                 numbered_registry))) =
   Returned true) /\
  fst (fst (registerAgent (fun _ => false) "alice" alice
                          (setAgentEventHandler (Some 7%nat)
                                                numbered_registry))) =
  fst (fst (registerAgent (fun _ => false) "alice" alice numbered_registry)).
Proof.
  split; [split; [reflexivity|]|].
  - exact (proj2 (proj1 (proj2 (proj2 (proj2
             (setAgentEventHandler_replaces
                nat three_throws (Some 7%nat) "alice" alice
                numbered_registry))))
             (mkHandlerCall 7%nat "alice" "registered" {[ "alice" := alice ]})
             (or_introl eq_refl))).
  - apply (proj2 (proj2 (proj2 (proj2
             (setAgentEventHandler_replaces
                nat (fun _ => false) (Some 7%nat) "alice" alice
                numbered_registry)))));
      intros call _; reflexivity.
Defined.

Lemma token_getters_agree_witness :
  getTokenAddress solo_registry "DREAM" = "" /\
  getTokenInfo solo_registry "DREAM" = mkTokenInfo "" 0 0.
Proof.
  apply (proj2 (token_getters_agree unit solo_registry "DREAM")).
  reflexivity.
Defined.

End Registry.


(** ** DreamConsensus.h / DreamConsensus.cpp *)

Module Consensus.

(** *** The libconsensus objects, as the controller sees them *)

(** [consensus::ConsensusExtFace::consensusConfig], the two fields the
    controller fills in. *)
Record consensusConfig : Type := mkConsensusConfig {
  nodeCount : N;
  requiredSigners : N
}.

(** Modelled from the spec: the [consensus::ConsensusEngine] class of the
    libconsensus library, of which the source only shows the calls. The
    engine keeps the network configuration it was given and reports through
    [isWorking()] whether it is running, which it is once [start()] has
    returned. *)
Record ConsensusEngine : Type := mkConsensusEngine {
  networkConfig : option string;     (* argument of parseTestConfigFile *)
  working : bool                     (* what isWorking() returns *)
}.

(** Modelled from the spec: the [consensus::BlockConsensusAgent] class of
    the libconsensus library. The agent carries its configuration, knows
    which of the two callbacks are subscribed, and queues the block data
    handed to [proposeBlock]. *)
Record BlockConsensusAgent : Type := mkBlockConsensusAgent {
  agentConfig : consensusConfig;
  proposedSubscribed : bool;
  finalizedSubscribed : bool;
  proposals : list string            (* block data submitted, oldest first *)
}.

(** The calls the controller makes into libconsensus. *)
Inductive ExtCall : Type :=
| InitBLSCrypto
| NewEngine
| ParseTestConfigFile (path : string)
| CreateAgent (config : consensusConfig)
| SubscribeProposed
| SubscribeFinalized
| Start
| ProposeBlock (blockData : string).

(** What can be thrown: the controller's own [std::runtime_error], or
    whatever a libconsensus call raises. *)
Inductive exception : Type :=
| runtime_error (what : string)
| engine_exception (call : ExtCall).

Inductive result (A : Type) : Type :=
| Ok (a : A)
| Throw (e : exception).

Arguments Ok {A}.
Arguments Throw {A}.

(** *** The controller object *)

(** [class DreamConsensus], its private members. [None] is a null pointer. *)
Record DreamConsensus : Type := mkDreamConsensus {
  engine_ : option ConsensusEngine;          (* std::unique_ptr *)
  agent_ : option BlockConsensusAgent;       (* std::shared_ptr *)
  currentHeight_ : N;                        (* uint64_t *)
  latestBlockHash_ : string;
  configPath_ : string;
  nodeCount_ : N;                            (* uint64_t *)
  requiredSignatures_ : N                    (* uint64_t *)
}.

(** Member-wise updates. *)
Definition set_engine (e : option ConsensusEngine) (c : DreamConsensus)
  : DreamConsensus :=
  mkDreamConsensus e (agent_ c) (currentHeight_ c) (latestBlockHash_ c)
                   (configPath_ c) (nodeCount_ c) (requiredSignatures_ c).

Definition set_agent (a : option BlockConsensusAgent) (c : DreamConsensus)
  : DreamConsensus :=
  mkDreamConsensus (engine_ c) a (currentHeight_ c) (latestBlockHash_ c)
                   (configPath_ c) (nodeCount_ c) (requiredSignatures_ c).

Definition set_nodeCount (n : N) (c : DreamConsensus) : DreamConsensus :=
  mkDreamConsensus (engine_ c) (agent_ c) (currentHeight_ c)
                   (latestBlockHash_ c) (configPath_ c) n
                   (requiredSignatures_ c).

Definition set_requiredSignatures (n : N) (c : DreamConsensus)
  : DreamConsensus :=
  mkDreamConsensus (engine_ c) (agent_ c) (currentHeight_ c)
                   (latestBlockHash_ c) (configPath_ c) (nodeCount_ c) n.

(** A method body: it runs on the object, leaves it changed, and returns or
    throws. What was assigned before a throw stays assigned. *)
Definition M (A : Type) : Type := DreamConsensus -> DreamConsensus * result A.

Definition ret {A : Type} (a : A) : M A := fun c => (c, Ok a).

Definition throw {A : Type} (e : exception) : M A := fun c => (c, Throw e).

Definition bind {A B : Type} (m : M A) (k : A -> M B) : M B :=
  fun c =>
    match m c with
    | (c', Ok a) => k a c'
    | (c', Throw e) => (c', Throw e)
    end.

Definition modify (f : DreamConsensus -> DreamConsensus) : M unit :=
  fun c => (f c, Ok tt).

Definition get : M DreamConsensus := fun c => (c, Ok c).

Declare Scope method_scope.
Delimit Scope method_scope with method.
Notation "x <- m ;; k" := (bind m (fun x => k))
  (at level 100, m at next level, right associativity) : method_scope.
Notation "m ;; k" := (bind m (fun _ => k))
  (at level 100, right associativity) : method_scope.

(** [DreamConsensus::DreamConsensus]; [latestBlockHash_] is
    default-constructed. *)
Definition DreamConsensus_ctor (configPath : string) : DreamConsensus :=
  mkDreamConsensus None None 0 "" configPath 0 0.

(** [dreamerId + ":" + dreamData] *)
Definition blockData (dreamerId dreamData : string) : string :=
  dreamerId ++ ":" ++ dreamData.

(** [DreamConsensus::getLatestDreamBlock] *)
Definition getLatestDreamBlock (c : DreamConsensus) : string :=
  latestBlockHash_ c.

(** [DreamConsensus::getBlockHeight] *)
Definition getBlockHeight (c : DreamConsensus) : N := currentHeight_ c.

(** [DreamConsensus::isConsensusRunning]: [engine_ && engine_->isWorking()] *)
Definition isConsensusRunning (c : DreamConsensus) : bool :=
  match engine_ c with
  | Some e => working e
  | None => false
  end.

(** [DreamConsensus::onBlockProposed]: an empty body. *)
Definition onBlockProposed (blockHash : string) (c : DreamConsensus)
  : DreamConsensus := c.

(** [DreamConsensus::onBlockFinalized] *)
Definition onBlockFinalized (blockNumber : N) (blockHash : string)
           (c : DreamConsensus) : DreamConsensus :=
  mkDreamConsensus (engine_ c) (agent_ c) blockNumber blockHash
                   (configPath_ c) (nodeCount_ c) (requiredSignatures_ c).

Section Engine.

(** Whether a call into libconsensus throws, given the object it is made
    from. *)
Variable throws : DreamConsensus -> ExtCall -> bool.

(** A call into libconsensus: it throws, or it returns and its effect on the
    objects the controller holds is [effect]. *)
Definition ext (call : ExtCall) (effect : DreamConsensus -> DreamConsensus)
  : M unit :=
  fun c => if throws c call then (c, Throw (engine_exception call))
           else (effect c, Ok tt).

(** [engine_->f()] and [agent_->f()] on the objects held. *)
Definition on_engine (f : ConsensusEngine -> ConsensusEngine)
           (c : DreamConsensus) : DreamConsensus :=
  set_engine (option_map f (engine_ c)) c.

Definition on_agent (f : BlockConsensusAgent -> BlockConsensusAgent)
           (c : DreamConsensus) : DreamConsensus :=
  set_agent (option_map f (agent_ c)) c.

(** [DreamConsensus::initializeBLS] *)
Definition initializeBLS : M unit := ext InitBLSCrypto (fun c => c).

Local Open Scope method_scope.

(** [DreamConsensus::initialize] *)
Definition initialize (nodeCount requiredSignatures : N) : M unit :=
  modify (set_nodeCount nodeCount) ;;
  modify (set_requiredSignatures requiredSignatures) ;;
  initializeBLS ;;
  ext NewEngine (set_engine (Some (mkConsensusEngine None false))) ;;
  c <- get ;;
  let config := mkConsensusConfig (nodeCount_ c) (requiredSignatures_ c) in
  ext (ParseTestConfigFile (configPath_ c))
      (on_engine (fun e => mkConsensusEngine (Some (configPath_ c)) (working e))) ;;
  ext (CreateAgent config)
      (set_agent (Some (mkBlockConsensusAgent config false false []))) ;;
  ext SubscribeProposed
      (on_agent (fun a => mkBlockConsensusAgent
                            (agentConfig a) true (finalizedSubscribed a)
                            (proposals a))) ;;
  ext SubscribeFinalized
      (on_agent (fun a => mkBlockConsensusAgent
                            (agentConfig a) (proposedSubscribed a) true
                            (proposals a))) ;;
  ext Start (on_engine (fun e => mkConsensusEngine (networkConfig e) true)).

(** [DreamConsensus::proposeDreamBlock] *)
Definition proposeDreamBlock (dreamerId dreamData : string) : M unit :=
  c <- get ;;
  match engine_ c, agent_ c with
  | Some _, Some _ =>
      let data := blockData dreamerId dreamData in
      ext (ProposeBlock data)
          (on_agent (fun a => mkBlockConsensusAgent
                                (agentConfig a) (proposedSubscribed a)
                                (finalizedSubscribed a)
                                (proposals a ++ [data])))
  | _, _ => throw (runtime_error "Consensus engine not initialized")
  end.

(** *** The controller as a state machine *)

(** What can happen to a controller: its two public mutating methods are
    called, or the engine delivers one of the two callbacks. *)
Inductive Event : Type :=
| CallInitialize (nodeCount requiredSignatures : N)
| CallProposeDreamBlock (dreamerId dreamData : string)
| BlockProposed (blockHash : string)
| BlockFinalized (blockNumber : N) (blockHash : string).

(** The object after one event (a thrown exception is the caller's to
    catch; the object stays as the throw left it). *)
Definition step (c : DreamConsensus) (ev : Event) : DreamConsensus :=
  match ev with
  | CallInitialize nc rs => fst (initialize nc rs c)
  | CallProposeDreamBlock id data => fst (proposeDreamBlock id data c)
  | BlockProposed h => onBlockProposed h c
  | BlockFinalized n h => onBlockFinalized n h c
  end.

Definition run (evs : list Event) (c : DreamConsensus) : DreamConsensus :=
  fold_left step evs c.

(** The finalization callbacks among the events, in delivery order. *)
Fixpoint finalizations (evs : list Event) : list (N * string) :=
  match evs with
  | [] => []
  | BlockFinalized n h :: rest => (n, h) :: finalizations rest
  | _ :: rest => finalizations rest
  end.

(** The pair the two getters read. *)
Definition reads (c : DreamConsensus) : N * string :=
  (getBlockHeight c, getLatestDreamBlock c).

(** *** Running the method bodies *)

(** Unfold a method body and split on each libconsensus call in turn. *)
Ltac run_body :=
  unfold initialize, proposeDreamBlock, initializeBLS, bind, ext, modify,
    get, throw, ret;
  repeat (cbn beta iota;
          match goal with
          | |- context [throws ?c ?call] =>
              let E := fresh "Ecall" in destruct (throws c call) eqn:E
          end);
  cbn beta iota.

Lemma initialize_keeps_reads (nc rs : N) (c : DreamConsensus) :
  reads (fst (initialize nc rs c)) = reads c.
Proof. run_body; reflexivity. Qed.

Lemma proposeDreamBlock_keeps_reads (id data : string) (c : DreamConsensus) :
  reads (fst (proposeDreamBlock id data c)) = reads c.
Proof.
  unfold proposeDreamBlock, bind, get.
  destruct (engine_ c) as [e|], (agent_ c) as [a|]; try reflexivity.
  unfold ext. destruct (throws c _); reflexivity.
Qed.

(** The getters read the last finalization delivered, or what they read
    before if there was none. *)
Lemma run_reads (evs : list Event) :
  forall c, reads (run evs c) = default (reads c) (last (finalizations evs)).
Proof.
  induction evs as [|ev evs IH]; intros c; [reflexivity|].
  change (run (ev :: evs) c) with (run evs (step c ev)).
  rewrite IH.
  destruct ev as [nc rs|id data|h|n h]; cbn [finalizations step].
  - rewrite initialize_keeps_reads. reflexivity.
  - rewrite proposeDreamBlock_keeps_reads. reflexivity.
  - reflexivity.
  - rewrite last_cons. destruct (last (finalizations evs)); reflexivity.
Qed.

Lemma finalizations_app (evs1 evs2 : list Event) :
  finalizations (evs1 ++ evs2) = (finalizations evs1 ++ finalizations evs2)%list.
Proof.
  induction evs1 as [|ev evs1 IH]; [reflexivity|].
  destruct ev; cbn [finalizations app]; rewrite IH; reflexivity.
Qed.

(** If a call to [initialize] throws, the exception is libconsensus's. *)
Lemma initialize_throws_only_engine (nc rs : N) (c : DreamConsensus)
      (e : exception) :
  snd (initialize nc rs c) = Throw e ->
  exists c' call, e = engine_exception call /\ throws c' call = true.
Proof.
  run_body; cbn [snd]; intros Hthrow; try discriminate;
    injection Hthrow as <-; eauto.
Qed.

Lemma initialize_stores (nc rs : N) (c : DreamConsensus) :
  nodeCount_ (fst (initialize nc rs c)) = nc /\
  requiredSignatures_ (fst (initialize nc rs c)) = rs.
Proof. run_body; split; reflexivity. Qed.

(** The object a completed [initialize] leaves behind. *)
Definition initialized (nc rs : N) (c : DreamConsensus) : DreamConsensus :=
  mkDreamConsensus
    (Some (mkConsensusEngine (Some (configPath_ c)) true))
    (Some (mkBlockConsensusAgent (mkConsensusConfig nc rs) true true []))
    (currentHeight_ c) (latestBlockHash_ c) (configPath_ c) nc rs.

Lemma initialize_completes (nc rs : N) (c : DreamConsensus) :
  (forall c' call, throws c' call = false) ->
  initialize nc rs c = (initialized nc rs c, Ok tt).
Proof.
  intros Hquiet. run_body;
    try match goal with
        | H : throws _ _ = true |- _ => rewrite Hquiet in H; discriminate H
        end.
  reflexivity.
Qed.

Lemma initialize_Ok (nc rs : N) (c c' : DreamConsensus) :
  initialize nc rs c = (c', Ok tt) -> c' = initialized nc rs c.
Proof.
  run_body; intros Hret; try discriminate.
  injection Hret as <-. reflexivity.
Qed.

(** *** Properties of the controller *)

(** The heights delivered by the finalization callbacks, in order. *)
Definition delivered_heights (evs : list Event) : list N :=
  map fst (finalizations evs).

Lemma increasing_app_lt (l1 l2 : list N) :
  StronglySorted N.lt (l1 ++ l2) ->
  forall x y, In x l1 -> In y l2 -> (x < y)%N.
Proof.
  induction l1 as [|a l1 IH]; intros Hsorted x y Hx Hy; [destruct Hx|].
  cbn [app] in Hsorted. apply StronglySorted_inv in Hsorted as [Hrest Hall].
  destruct Hx as [<-|Hx].
  - rewrite Forall_forall in Hall. apply Hall.
    apply list_elem_of_In, in_or_app. right. exact Hy.
  - apply IH; assumption.
Qed.

Lemma height_run (evs : list Event) (c : DreamConsensus) :
  getBlockHeight (run evs c) =
  default (getBlockHeight c) (last (delivered_heights evs)).
Proof.
  change (getBlockHeight (run evs c)) with (fst (reads (run evs c))).
  rewrite run_reads. unfold delivered_heights.
  change (map fst (finalizations evs)) with (fst <$> finalizations evs).
  rewrite fmap_last.
  destruct (last (finalizations evs)); reflexivity.
Qed.

(** C9. From construction on, and through any calls of [initialize] and
    [proposeDreamBlock] and any block-proposed callbacks, the getters return
    0 and the empty string as long as no finalization callback was
    delivered (they are plain reads and cannot throw). After a callback
    [onBlockFinalized n h], and until the next one, they return [n] and [h].
    When the callbacks come with strictly increasing block numbers, the
    height read never goes down along the run. *)
Theorem reads_follow_finalization (path : string) (evs : list Event) :
  (finalizations evs = [] ->
   getBlockHeight (run evs (DreamConsensus_ctor path)) = 0%N /\
   getLatestDreamBlock (run evs (DreamConsensus_ctor path)) = "") /\
  (forall before n h after,
     evs = (before ++ BlockFinalized n h :: after)%list ->
     finalizations after = [] ->
     getBlockHeight (run evs (DreamConsensus_ctor path)) = n /\
     getLatestDreamBlock (run evs (DreamConsensus_ctor path)) = h) /\
  (StronglySorted N.lt (delivered_heights evs) ->
   forall evs1 evs2,
     evs = (evs1 ++ evs2)%list ->
     (getBlockHeight (run evs1 (DreamConsensus_ctor path)) <=
      getBlockHeight (run evs (DreamConsensus_ctor path)))%N).
Proof.
  split; [|split].
  - intros Hnone.
    pose proof (run_reads evs (DreamConsensus_ctor path)) as Hreads.
    rewrite Hnone in Hreads. cbn in Hreads.
    injection Hreads as Hh Hb. split; assumption.
  - intros before n h after -> Hnone.
    pose proof (run_reads (before ++ BlockFinalized n h :: after)
                          (DreamConsensus_ctor path)) as Hreads.
    rewrite finalizations_app in Hreads.
    cbn [finalizations] in Hreads. rewrite Hnone, last_snoc in Hreads.
    cbn in Hreads. injection Hreads as Hh Hb. split; assumption.
  - intros Hsorted evs1 evs2 ->.
    rewrite !height_run.
    unfold delivered_heights in *.
    rewrite finalizations_app, map_app in *.
    set (l1 := map fst (finalizations evs1)) in *.
    set (l2 := map fst (finalizations evs2)) in *.
    rewrite last_app.
    destruct (last l2) as [y|] eqn:H2; [|apply N.le_refl].
    destruct (last l1) as [x|] eqn:H1; [|apply N.le_0_l].
    cbn [default]. apply N.lt_le_incl.
    apply (increasing_app_lt l1 l2 Hsorted);
      apply list_elem_of_In, last_Some_elem_of; assumption.
Qed.

(** C10. [onBlockFinalized n h] overwrites the stored pair whatever it was:
    afterwards the height read is [n] and the block read is [h], nothing
    else in the object changes, and a block number below the current height
    lowers the height that is reported. *)
Theorem onBlockFinalized_overwrites (n : N) (h : string) (c : DreamConsensus) :
  getBlockHeight (onBlockFinalized n h c) = n /\
  getLatestDreamBlock (onBlockFinalized n h c) = h /\
  engine_ (onBlockFinalized n h c) = engine_ c /\
  agent_ (onBlockFinalized n h c) = agent_ c /\
  ((n < getBlockHeight c)%N ->
   (getBlockHeight (onBlockFinalized n h c) < getBlockHeight c)%N).
Proof.
  repeat (split; [reflexivity|]).
  intros Hlt. exact Hlt.
Qed.

(** The agent after one more block was handed to [proposeBlock]. *)
Definition submitted (data : string) (a : BlockConsensusAgent)
  : BlockConsensusAgent :=
  mkBlockConsensusAgent (agentConfig a) (proposedSubscribed a)
                        (finalizedSubscribed a) (proposals a ++ [data]).

Lemma proposeDreamBlock_submits (id data : string) (c : DreamConsensus)
      (e : ConsensusEngine) (a : BlockConsensusAgent) :
  engine_ c = Some e -> agent_ c = Some a ->
  throws c (ProposeBlock (blockData id data)) = false ->
  proposeDreamBlock id data c =
  (set_agent (Some (submitted (blockData id data) a)) c, Ok tt).
Proof.
  intros He Ha Hquiet. unfold proposeDreamBlock, bind, get, ext.
  rewrite He, Ha, Hquiet. unfold on_agent. rewrite Ha. reflexivity.
Qed.

(** C1, as the code has it. [proposeDreamBlock] takes no registry and asks
    none: once [engine_] and [agent_] are set it hands
    [dreamerId + ":" + dreamData] to the agent (unless the engine's
    [proposeBlock] itself throws), also for a proposer to whom a registry
    denies ["propose"]. *)
Theorem proposeDreamBlock_asks_no_registry
        (Callable : Type)
        (iteration : gmap string Registry.AgentInfo ->
                     list (string * Registry.AgentInfo))
        (r : Registry.AgentRegistry Callable)
        (id data : string) (c : DreamConsensus)
        (e : ConsensusEngine) (a : BlockConsensusAgent) :
  Registry.hasPermission iteration r (Registry.getAgentAddress r id) "propose"
  = false ->
  engine_ c = Some e -> agent_ c = Some a ->
  throws c (ProposeBlock (blockData id data)) = false ->
  proposeDreamBlock id data c =
  (set_agent (Some (submitted (blockData id data) a)) c, Ok tt).
Proof.
  intros _ He Ha Hquiet. apply (proposeDreamBlock_submits id data c e a);
    assumption.
Qed.

(** C5, as the code has it. [initialize] does not compare its arguments:
    whatever [nodeCount] and [requiredSignatures] are, it stores both; the
    only exceptions that leave it are those of libconsensus calls; and when
    no such call throws it completes with the engine constructed and
    configured, the agent created with exactly these two numbers, both
    callbacks subscribed and the engine started. *)
Theorem initialize_unvalidated (nc rs : N) (c : DreamConsensus) :
  nodeCount_ (fst (initialize nc rs c)) = nc /\
  requiredSignatures_ (fst (initialize nc rs c)) = rs /\
  (forall e, snd (initialize nc rs c) = Throw e ->
             exists c' call, e = engine_exception call /\
                             throws c' call = true) /\
  ((forall c' call, throws c' call = false) ->
   initialize nc rs c = (initialized nc rs c, Ok tt) /\
   isConsensusRunning (initialized nc rs c) = true).
Proof.
  destruct (initialize_stores nc rs c) as [Hn Hr].
  split; [exact Hn|]. split; [exact Hr|]. split.
  - intros e. apply initialize_throws_only_engine.
  - intros Hquiet. split; [apply initialize_completes, Hquiet|reflexivity].
Qed.




(** C8, as the code has it. [proposeDreamBlock] throws its own error,
    [runtime_error "Consensus engine not initialized"], exactly when
    [engine_] or [agent_] is null, and then leaves the object untouched and
    hands nothing to the engine; that is the case on a newly constructed
    controller. With both set it does not ask whether the engine is working:
    it hands the block to the agent and returns, without touching the height
    or the latest block, and only an exception of the engine's
    [proposeBlock] can leave it. *)
Theorem proposeDreamBlock_guard (id data : string) (c : DreamConsensus) :
  ((engine_ c = None \/ agent_ c = None) <->
   snd (proposeDreamBlock id data c) =
   Throw (runtime_error "Consensus engine not initialized")) /\
  ((engine_ c = None \/ agent_ c = None) ->
   fst (proposeDreamBlock id data c) = c) /\
  (forall path,
     proposeDreamBlock id data (DreamConsensus_ctor path) =
     (DreamConsensus_ctor path,
      Throw (runtime_error "Consensus engine not initialized"))) /\
  (forall e a,
     engine_ c = Some e -> agent_ c = Some a ->
     throws c (ProposeBlock (blockData id data)) = false ->
     proposeDreamBlock id data c =
     (set_agent (Some (submitted (blockData id data) a)) c, Ok tt) /\
     reads (fst (proposeDreamBlock id data c)) = reads c) /\
  (forall e a,
     engine_ c = Some e -> agent_ c = Some a ->
     throws c (ProposeBlock (blockData id data)) = true ->
     proposeDreamBlock id data c =
     (c, Throw (engine_exception (ProposeBlock (blockData id data))))).
Proof.
  split; [|split; [|split; [|split]]].
  - unfold proposeDreamBlock, bind, get, ext, throw.
    destruct (engine_ c) as [e|], (agent_ c) as [a|]; cbn [snd]; split;
      try (intros; reflexivity); try (intros; right; reflexivity);
      try (intros; left; reflexivity).
    + intros [Hnull|Hnull]; discriminate Hnull.
    + destruct (throws c _); discriminate.
  - unfold proposeDreamBlock, bind, get, throw.
    intros [Hnull|Hnull]; rewrite Hnull; [reflexivity|].
    destruct (engine_ c); reflexivity.
  - intros path. reflexivity.
  - intros e a He Ha Hquiet.
    split; [apply (proposeDreamBlock_submits id data c e a); assumption|].
    apply proposeDreamBlock_keeps_reads.
  - intros e a He Ha Hthrow. unfold proposeDreamBlock, bind, get, ext.
    rewrite He, Ha, Hthrow. reflexivity.
Qed.

End Engine.

(** *** The block-data encoding *)

(** "The delimiter does not appear in [s]". *)
Definition colon_free (s : string) : Prop :=
  ~ In ":"%char (list_ascii_of_string s).

(** Reading a blob back: everything before the first [":"], and everything
    after it. The controller has no decoder; this one serves to state what
    can be recovered. *)
Fixpoint split_first_colon (blob : string) : option (string * string) :=
  match blob with
  | EmptyString => None
  | String ch rest =>
      if Ascii.eqb ch ":" then Some (EmptyString, rest)
      else match split_first_colon rest with
           | Some (id, data) => Some (String ch id, data)
           | None => None
           end
  end.

Lemma blockData_nil (data : string) :
  blockData EmptyString data = String ":" data.
Proof. reflexivity. Qed.

Lemma blockData_cons (ch : ascii) (id data : string) :
  blockData (String ch id) data = String ch (blockData id data).
Proof. reflexivity. Qed.

Lemma split_blockData (id data : string) :
  colon_free id -> split_first_colon (blockData id data) = Some (id, data).
Proof.
  unfold colon_free. induction id as [|ch id IH]; intros Hfree.
  - reflexivity.
  - rewrite blockData_cons. cbn [split_first_colon].
    cbn [list_ascii_of_string In] in Hfree.
    destruct (Ascii.eqb ch ":") eqn:Hch.
    + apply Ascii.eqb_eq in Hch. exfalso. apply Hfree. left. exact Hch.
    + rewrite IH; [reflexivity|]. intros Hin. apply Hfree. right. exact Hin.
Qed.

(** C7, as the code has it. The blob is [dreamerId + ":" + dreamData] with
    nothing escaped. On proposer ids that contain no [":"] it is
    unambiguous: splitting the blob at its first [":"] gives the pair back,
    so two such pairs with the same blob are the same pair. *)
Theorem blockData_unambiguous_without_colon (id1 data1 id2 data2 : string) :
  colon_free id1 -> colon_free id2 ->
  split_first_colon (blockData id1 data1) = Some (id1, data1) /\
  (blockData id1 data1 = blockData id2 data2 -> id1 = id2 /\ data1 = data2).
Proof.
  intros Hfree1 Hfree2.
  pose proof (split_blockData id1 data1 Hfree1) as Hsplit1.
  split; [exact Hsplit1|].
  intros Hsame. rewrite Hsame, (split_blockData id2 data2 Hfree2) in Hsplit1.
  injection Hsplit1 as -> ->. split; reflexivity.
Qed.

Lemma blockData_unambiguous_without_colon_witness :
  split_first_colon (blockData "alice" "lucid:dream") =
  Some ("alice", "lucid:dream") /\
  (blockData "alice" "lucid:dream" = blockData "alice" "lucid:dream" ->
   "alice" = "alice" /\ "lucid:dream" = "lucid:dream").
Proof.
  apply (blockData_unambiguous_without_colon
           "alice" "lucid:dream" "alice" "lucid:dream");
    vm_compute; intros Hin; decompose [or] Hin; try discriminate; assumption.
Defined.

(** C7 as worded fails: a [":"] inside the proposer id moves the boundary.
    Proposer ["a:b"] with payload ["c"] and proposer ["a"] with payload
    ["b:c"] are submitted as the same blob. *)
Lemma blockData_ambiguous :
  ("a:b", "c") <> ("a", "b:c") /\
  blockData "a:b" "c" = blockData "a" "b:c".
Proof. split; [discriminate|reflexivity]. Qed.

(** *** Sample engines and runs *)

(** An engine none of whose calls throws. *)
Definition quiet : DreamConsensus -> ExtCall -> bool := fun _ _ => false.

(** An engine whose [proposeBlock] throws. *)
Definition propose_fails : DreamConsensus -> ExtCall -> bool :=
  fun _ call => match call with ProposeBlock _ => true | _ => false end.

(** An engine whose [start()] throws. *)
Definition start_fails : DreamConsensus -> ExtCall -> bool :=
  fun _ call => match call with Start => true | _ => false end.

Definition fresh : DreamConsensus := DreamConsensus_ctor "network.json".

Example initialize_fresh :
  initialize quiet 4 3 fresh =
  (mkDreamConsensus
     (Some (mkConsensusEngine (Some "network.json") true))
     (Some (mkBlockConsensusAgent (mkConsensusConfig 4 3) true true []))
     0 "" "network.json" 4 3,
   Ok tt).
Proof. reflexivity. Qed.

Example run_out_of_order :
  reads (run quiet [CallInitialize 4 3; BlockFinalized 5 "0xe5";
                    BlockFinalized 2 "0xb2"] fresh) = (2%N, "0xb2").
Proof. reflexivity. Qed.

(** A registry in which mallory is registered, without ["propose"]. *)
Definition addr_m : string := "0x00000000000000000000000000000000000badd1".

Definition observer_registry : Registry.AgentRegistry unit :=
  Registry.mkAgentRegistry
    "agents.json"
    {[ "mallory" := Registry.mkAgentInfo addr_m "observer" ["read"] ]}
    ∅ None.

(** The controller after a completed [initialize 4 3]. *)
Definition running : DreamConsensus := fst (initialize quiet 4 3 fresh).

(** C1 as worded fails: mallory's address has no ["propose"] permission in
    the registry, the controller is initialised, and her block is handed to
    the agent all the same; the call returns normally. *)
Lemma unauthorized_proposal_reaches_engine :
  Registry.getAgentAddress observer_registry "mallory" = addr_m /\
  Registry.hasPermission map_to_list observer_registry addr_m "propose"
  = false /\
  proposeDreamBlock quiet "mallory" "nightmare" running =
  (mkDreamConsensus
     (Some (mkConsensusEngine (Some "network.json") true))
     (Some (mkBlockConsensusAgent (mkConsensusConfig 4 3) true true
                                  ["mallory:nightmare"]))
     0 "" "network.json" 4 3,
   Ok tt).
Proof. repeat apply conj; vm_compute; reflexivity. Qed.

Lemma proposeDreamBlock_asks_no_registry_witness :
  proposeDreamBlock quiet "mallory" "nightmare" running =
  (set_agent
     (Some (submitted (blockData "mallory" "nightmare")
                      (mkBlockConsensusAgent (mkConsensusConfig 4 3)
                                             true true [])))
     running,
   Ok tt).
Proof.
  apply (proposeDreamBlock_asks_no_registry
           quiet unit map_to_list observer_registry
           "mallory" "nightmare" running
           (mkConsensusEngine (Some "network.json") true)
           (mkBlockConsensusAgent (mkConsensusConfig 4 3) true true []));
    vm_compute; reflexivity.
Defined.

(** C5 as worded fails: with one node and two required signatures, and with
    four nodes and no required signature, [initialize] returns normally and
    leaves an engine that was constructed, subscribed to and started. *)
Lemma initialize_accepts_bad_thresholds :
  (1 < 2)%N /\
  initialize quiet 1 2 fresh =
  (mkDreamConsensus
     (Some (mkConsensusEngine (Some "network.json") true))
     (Some (mkBlockConsensusAgent (mkConsensusConfig 1 2) true true []))
     0 "" "network.json" 1 2,
   Ok tt) /\
  isConsensusRunning (fst (initialize quiet 1 2 fresh)) = true /\
  (0 < 1)%N /\
  initialize quiet 4 0 fresh =
  (mkDreamConsensus
     (Some (mkConsensusEngine (Some "network.json") true))
     (Some (mkBlockConsensusAgent (mkConsensusConfig 4 0) true true []))
     0 "" "network.json" 4 0,
   Ok tt).
Proof. repeat apply conj; vm_compute; reflexivity. Qed.

Lemma initialize_unvalidated_witness :
  (initialize quiet 1 2 fresh = (initialized 1 2 fresh, Ok tt) /\
   isConsensusRunning (initialized 1 2 fresh) = true) /\
  (snd (initialize start_fails 1 2 fresh) = Throw (engine_exception Start) /\
   exists c' call, engine_exception Start = engine_exception call /\
                   start_fails c' call = true).
Proof.
  split.
  - apply (proj2 (proj2 (proj2 (initialize_unvalidated quiet 1 2 fresh)))).
    intros c' call. reflexivity.
  - split; [reflexivity|].
    apply (proj1 (proj2 (proj2
             (initialize_unvalidated start_fails 1 2 fresh)))).
    reflexivity.
Defined.



(** The controller after an [initialize 4 3] whose [start()] threw. *)
Definition stalled : DreamConsensus := fst (initialize start_fails 4 3 fresh).

(** C8 as worded fails: when the engine's [start()] throws, [initialize]
    leaves [engine_] and [agent_] set and the engine not working, so
    [isConsensusRunning] is false; [proposeDreamBlock] then does not fail
    and hands the block to the agent. *)
Lemma proposal_accepted_when_not_running :
  snd (initialize start_fails 4 3 fresh) = Throw (engine_exception Start) /\
  isConsensusRunning stalled = false /\
  proposeDreamBlock start_fails "alice" "dream" stalled =
  (mkDreamConsensus
     (Some (mkConsensusEngine (Some "network.json") false))
     (Some (mkBlockConsensusAgent (mkConsensusConfig 4 3) true true
                                  ["alice:dream"]))
     0 "" "network.json" 4 3,
   Ok tt).
Proof. repeat apply conj; vm_compute; reflexivity. Qed.

Lemma proposeDreamBlock_guard_witness :
  snd (proposeDreamBlock quiet "alice" "dream" fresh) =
  Throw (runtime_error "Consensus engine not initialized") /\
  fst (proposeDreamBlock quiet "alice" "dream" fresh) = fresh /\
  proposeDreamBlock quiet "alice" "dream" running =
  (set_agent
     (Some (submitted (blockData "alice" "dream")
                      (mkBlockConsensusAgent (mkConsensusConfig 4 3)
                                             true true [])))
     running,
   Ok tt) /\
  proposeDreamBlock propose_fails "alice" "dream" running =
  (running, Throw (engine_exception (ProposeBlock (blockData "alice" "dream")))).
Proof.
  destruct (proposeDreamBlock_guard quiet "alice" "dream" fresh)
    as (Hiff & Hsame & _).
  destruct (proposeDreamBlock_guard quiet "alice" "dream" running)
    as (_ & _ & _ & Hsubmit & _).
  destruct (proposeDreamBlock_guard propose_fails "alice" "dream" running)
    as (_ & _ & _ & _ & Hthrow).
  assert (engine_ fresh = None \/ agent_ fresh = None) as Hnull
      by (left; reflexivity).
  split; [exact (proj1 Hiff Hnull)|]. split; [exact (Hsame Hnull)|].
  split.
  - exact (proj1 (Hsubmit
                    (mkConsensusEngine (Some "network.json") true)
                    (mkBlockConsensusAgent (mkConsensusConfig 4 3) true true [])
                    eq_refl eq_refl eq_refl)).
  - exact (Hthrow
             (mkConsensusEngine (Some "network.json") true)
             (mkBlockConsensusAgent (mkConsensusConfig 4 3) true true [])
             eq_refl eq_refl eq_refl).
Defined.

(** A run with three finalizations delivered in order. *)
Definition ordered_run : list Event :=
  [CallInitialize 4 3; CallProposeDreamBlock "alice" "dream";
   BlockProposed "0xa1"; BlockFinalized 1 "0xa1";
   BlockFinalized 2 "0xb2"; BlockProposed "0xc3"; BlockFinalized 3 "0xc3";
   CallProposeDreamBlock "alice" "again"].

Lemma ordered_run_increasing :
  StronglySorted N.lt (delivered_heights ordered_run).
Proof.
  cbv [delivered_heights ordered_run finalizations map fst].
  repeat constructor.
Defined.

Lemma reads_follow_finalization_witness :
  (getBlockHeight (run quiet ordered_run fresh) = 3%N /\
   getLatestDreamBlock (run quiet ordered_run fresh) = "0xc3") /\
  (getBlockHeight (run quiet (firstn 5 ordered_run) fresh) <=
   getBlockHeight (run quiet ordered_run fresh))%N /\
  (getBlockHeight
     (run quiet [CallInitialize 4 3; BlockProposed "0xa1"] fresh) = 0%N /\
   getLatestDreamBlock
     (run quiet [CallInitialize 4 3; BlockProposed "0xa1"] fresh) = "").
Proof.
  destruct (reads_follow_finalization quiet "network.json" ordered_run)
    as (_ & Hlatest & Hmono).
  split; [|split].
  - exact (Hlatest (firstn 6 ordered_run) 3%N "0xc3"
                   [CallProposeDreamBlock "alice" "again"] eq_refl eq_refl).
  - exact (Hmono ordered_run_increasing
                 (firstn 5 ordered_run) (skipn 5 ordered_run) eq_refl).
  - exact (proj1 (reads_follow_finalization
                    quiet "network.json"
                    [CallInitialize 4 3; BlockProposed "0xa1"])
                 eq_refl).
Defined.

Lemma onBlockFinalized_overwrites_witness :
  (getBlockHeight (onBlockFinalized 2 "0xb2" (onBlockFinalized 5 "0xe5" fresh))
   < getBlockHeight (onBlockFinalized 5 "0xe5" fresh))%N.
Proof.
  apply (proj2 (proj2 (proj2 (proj2
           (onBlockFinalized_overwrites
              2 "0xb2" (onBlockFinalized 5 "0xe5" fresh)))))).
  reflexivity.
Defined.

(** *** Further properties of the controller *)

(** The one call [DreamConsensus::~DreamConsensus] can make. *)
Inductive TeardownCall : Type :=
| ExitGracefully.

(** [DreamConsensus::~DreamConsensus]: the calls it makes on the engine. *)
Definition destructor (c : DreamConsensus) : list TeardownCall :=
  match engine_ c with
  | Some _ => [ExitGracefully]
  | None => []
  end.

Definition is_initialize (ev : Event) : bool :=
  match ev with
  | CallInitialize _ _ => true
  | _ => false
  end.

(** A caller proposing a list of blocks one after the other. *)
Definition propose_all (blocks : list (string * string)) : list Event :=
  map (fun b => CallProposeDreamBlock (fst b) (snd b)) blocks.

(** What ties a controller built on [path] together: the path stays, an
    agent is only held together with an engine, and an engine that works was
    configured from [path] and comes with an agent subscribed to both
    callbacks. *)
Definition wired (path : string) (c : DreamConsensus) : Prop :=
  configPath_ c = path /\
  (is_Some (agent_ c) -> is_Some (engine_ c)) /\
  (forall e, engine_ c = Some e -> working e = true ->
             networkConfig e = Some path /\
             exists a, agent_ c = Some a /\
                       proposedSubscribed a = true /\
                       finalizedSubscribed a = true).

Section ControllerFacts.

Variable throws : DreamConsensus -> ExtCall -> bool.

Ltac run_method :=
  unfold initialize, proposeDreamBlock, initializeBLS, bind, ext, modify,
    get, throw, ret;
  repeat (cbn beta iota;
          match goal with
          | |- context [throws ?c ?call] =>
              let E := fresh "Ecall" in destruct (throws c call) eqn:E
          end);
  cbn beta iota.

Lemma proposeDreamBlock_state (id data : string) (c : DreamConsensus) :
  fst (proposeDreamBlock throws id data c) = c \/
  exists e a,
    engine_ c = Some e /\ agent_ c = Some a /\
    throws c (ProposeBlock (blockData id data)) = false /\
    fst (proposeDreamBlock throws id data c) =
    set_agent (Some (submitted (blockData id data) a)) c.
Proof.
  unfold proposeDreamBlock, bind, get, ext, throw.
  destruct (engine_ c) as [e|] eqn:He; [|left; reflexivity].
  destruct (agent_ c) as [a|] eqn:Ha; [|left; reflexivity].
  destruct (throws c _) eqn:Hcall; [left; reflexivity|].
  right. exists e, a. unfold on_agent. rewrite Ha. auto.
Qed.

Lemma step_without_initialize (c : DreamConsensus) (ev : Event) :
  is_initialize ev = false ->
  engine_ (step throws c ev) = engine_ c /\
  nodeCount_ (step throws c ev) = nodeCount_ c /\
  requiredSignatures_ (step throws c ev) = requiredSignatures_ c /\
  configPath_ (step throws c ev) = configPath_ c /\
  (agent_ c = None -> agent_ (step throws c ev) = None).
Proof.
  destruct ev as [nc rs|id data|h|n h]; cbn [is_initialize step];
    intros Hev; try discriminate.
  - destruct (proposeDreamBlock_state id data c)
      as [->|(e & a & He & Ha & _ & ->)].
    + auto 6.
    + repeat (split; [reflexivity|]). congruence.
  - auto 6.
  - repeat (split; [reflexivity|]). auto.
Qed.

(** As long as [initialize] is not called, nothing that happens to a
    controller changes its engine pointer, its configuration or whether it
    reports running, and a null agent stays null. A controller on which
    [initialize] was never called therefore never runs, never holds an
    engine or an agent, and is destroyed without a call into the engine. *)
Theorem run_without_initialize (evs : list Event) :
  forallb (fun ev => negb (is_initialize ev)) evs = true ->
  (forall c,
     engine_ (run throws evs c) = engine_ c /\
     isConsensusRunning (run throws evs c) = isConsensusRunning c /\
     nodeCount_ (run throws evs c) = nodeCount_ c /\
     requiredSignatures_ (run throws evs c) = requiredSignatures_ c /\
     configPath_ (run throws evs c) = configPath_ c /\
     (agent_ c = None -> agent_ (run throws evs c) = None)) /\
  (forall path,
     engine_ (run throws evs (DreamConsensus_ctor path)) = None /\
     agent_ (run throws evs (DreamConsensus_ctor path)) = None /\
     isConsensusRunning (run throws evs (DreamConsensus_ctor path)) = false /\
     destructor (run throws evs (DreamConsensus_ctor path)) = []).
Proof.
  intros Hnone.
  assert (forall c,
            engine_ (run throws evs c) = engine_ c /\
            isConsensusRunning (run throws evs c) = isConsensusRunning c /\
            nodeCount_ (run throws evs c) = nodeCount_ c /\
            requiredSignatures_ (run throws evs c) = requiredSignatures_ c /\
            configPath_ (run throws evs c) = configPath_ c /\
            (agent_ c = None -> agent_ (run throws evs c) = None)) as Hkeep.
  { induction evs as [|ev evs IH]; intros c; [auto 7|].
    cbn [forallb] in Hnone. apply andb_true_iff in Hnone as [Hev Hrest].
    apply negb_true_iff in Hev.
    change (run throws (ev :: evs) c) with (run throws evs (step throws c ev)).
    destruct (IH Hrest (step throws c ev)) as (He & Hr & Hn & Hs & Hp & Ha).
    destruct (step_without_initialize c ev Hev)
      as (He1 & Hn1 & Hs1 & Hp1 & Ha1).
    unfold isConsensusRunning in *. rewrite He in *. rewrite He1 in *.
    repeat (split; [congruence|]). auto. }
  split; [exact Hkeep|].
  intros path.
  destruct (Hkeep (DreamConsensus_ctor path)) as (He & Hr & _ & _ & _ & Ha).
  unfold destructor. rewrite He. auto.
Qed.

Lemma wired_ctor (path : string) : wired path (DreamConsensus_ctor path).
Proof.
  split; [reflexivity|]. split.
  - intros [a Ha]. discriminate Ha.
  - intros e He. discriminate He.
Qed.

Lemma wired_step (path : string) (c : DreamConsensus) (ev : Event) :
  wired path c -> wired path (step throws c ev).
Proof.
  intros (Hpath & Hagent & Hwork).
  destruct ev as [nc rs|id data|h|n h]; cbn [step].
  - unfold wired. run_method;
      cbn [fst configPath_ agent_ engine_ set_engine set_agent set_nodeCount
           set_requiredSignatures on_engine on_agent option_map];
      (split; [exact Hpath|]); split; eauto;
      try (intros e [= <-]; cbn [working]; discriminate).
    intros e [= <-] _. cbn [networkConfig]. rewrite Hpath.
    split; [reflexivity|]. eexists. split; [reflexivity|]. auto.
  - destruct (proposeDreamBlock_state id data c)
      as [->|(e & a & He & Ha & _ & ->)].
    + split; auto.
    + split; [exact Hpath|]. split; cbn [engine_ agent_ set_agent].
      * intros _. rewrite He. eauto.
      * intros e' He' Hw. destruct (Hwork e' He' Hw) as (Hnet & a' & Ha' & Hs).
        split; [exact Hnet|]. rewrite Ha in Ha'. injection Ha' as <-.
        eexists. split; [reflexivity|]. exact Hs.
  - split; auto.
  - split; [exact Hpath|]. split; [exact Hagent|exact Hwork].
Qed.

(** Whatever is called on a controller and whatever the engine throws, from
    construction on: the configuration path never changes; an agent is only
    ever held together with an engine; and whenever the controller reports
    running, its engine was configured from that path and its agent is
    subscribed to both callbacks. *)
Theorem run_keeps_wired (path : string) (evs : list Event) :
  wired path (run throws evs (DreamConsensus_ctor path)) /\
  (isConsensusRunning (run throws evs (DreamConsensus_ctor path)) = true ->
   exists e a,
     engine_ (run throws evs (DreamConsensus_ctor path)) = Some e /\
     networkConfig e = Some path /\
     agent_ (run throws evs (DreamConsensus_ctor path)) = Some a /\
     proposedSubscribed a = true /\ finalizedSubscribed a = true).
Proof.
  assert (forall c, wired path c -> wired path (run throws evs c)) as Hrun.
  { induction evs as [|ev evs IH]; intros c Hc; [exact Hc|].
    apply IH, wired_step, Hc. }
  pose proof (Hrun _ (wired_ctor path)) as Hw.
  split; [exact Hw|].
  destruct Hw as (_ & _ & Hwork). unfold isConsensusRunning.
  destruct (engine_ (run throws evs (DreamConsensus_ctor path))) as [e|];
    [|discriminate].
  intros Hworking. destruct (Hwork e eq_refl Hworking) as (Hnet & a & Ha & Hs).
  exists e, a. auto.
Qed.

Lemma step_keeps_pointers (c : DreamConsensus) (ev : Event) :
  (is_Some (engine_ c) -> is_Some (engine_ (step throws c ev))) /\
  (is_Some (agent_ c) -> is_Some (agent_ (step throws c ev))).
Proof.
  destruct ev as [nc rs|id data|h|n h]; cbn [step].
  - run_method;
      cbn [fst agent_ engine_ set_engine set_agent set_nodeCount
           set_requiredSignatures on_engine on_agent option_map];
      split; eauto.
  - destruct (proposeDreamBlock_state id data c)
      as [->|(e & a & He & Ha & _ & ->)]; [auto|].
    cbn [engine_ agent_ set_agent]. split; eauto.
  - auto.
  - auto.
Qed.

Lemma run_keeps_pointers (evs : list Event) :
  forall c,
    (is_Some (engine_ c) -> is_Some (engine_ (run throws evs c))) /\
    (is_Some (agent_ c) -> is_Some (agent_ (run throws evs c))).
Proof.
  induction evs as [|ev evs IH]; intros c; [auto|].
  change (run throws (ev :: evs) c) with (run throws evs (step throws c ev)).
  destruct (IH (step throws c ev)) as [He Ha].
  destruct (step_keeps_pointers c ev) as [He1 Ha1]. auto.
Qed.

(** Nothing resets [engine_] or [agent_] to null. So once an [initialize]
    has completed, no later call of [proposeDreamBlock] throws the
    "not initialized" error, whatever happened in between (further
    [initialize] calls that failed included), and the destructor will call
    [exitGracefully]. *)
Theorem initialized_for_good (nc rs : N) (c c1 : DreamConsensus)
        (evs : list Event) (id data : string) :
  initialize throws nc rs c = (c1, Ok tt) ->
  is_Some (engine_ (run throws evs c1)) /\
  is_Some (agent_ (run throws evs c1)) /\
  snd (proposeDreamBlock throws id data (run throws evs c1)) <>
  Throw (runtime_error "Consensus engine not initialized") /\
  destructor (run throws evs c1) = [ExitGracefully].
Proof.
  intros Hinit. apply initialize_Ok in Hinit. subst c1.
  destruct (run_keeps_pointers evs (initialized nc rs c)) as [He Ha].
  specialize (He (ltac:(cbn; eauto))). specialize (Ha (ltac:(cbn; eauto))).
  split; [exact He|]. split; [exact Ha|].
  destruct He as [e He], Ha as [a Ha]. split.
  - unfold proposeDreamBlock, bind, get, ext. rewrite He, Ha.
    destruct (throws _ _); discriminate.
  - unfold destructor. rewrite He. reflexivity.
Qed.

Lemma propose_all_run (blocks : list (string * string)) :
  (forall c' d, throws c' (ProposeBlock d) = false) ->
  forall c e a,
    engine_ c = Some e -> agent_ c = Some a ->
    run throws (propose_all blocks) c =
    set_agent
      (Some (mkBlockConsensusAgent
               (agentConfig a) (proposedSubscribed a) (finalizedSubscribed a)
               (proposals a ++ map (fun b => blockData (fst b) (snd b)) blocks)))
      c.
Proof.
  intros Hquiet.
  induction blocks as [|[id data] blocks IH]; intros c e a He Ha.
  - cbn [propose_all map run fold_left]. rewrite app_nil_r.
    destruct c, a. cbn in *. subst. reflexivity.
  - change (run throws (propose_all ((id, data) :: blocks)) c)
      with (run throws (propose_all blocks)
                (fst (proposeDreamBlock throws id data c))).
    rewrite (proposeDreamBlock_submits throws id data c e a He Ha (Hquiet _ _)).
    cbn [fst].
    rewrite (IH (set_agent (Some (submitted (blockData id data) a)) c)
                e (submitted (blockData id data) a) He eq_refl).
    unfold set_agent, submitted.
    cbn [engine_ agent_ currentHeight_ latestBlockHash_ configPath_
         nodeCount_ requiredSignatures_ agentConfig proposedSubscribed
         finalizedSubscribed proposals map fst snd].
    rewrite <- app_assoc. reflexivity.
Qed.

(** Blocks proposed one after the other on an initialised controller reach
    the agent in the order of the calls, each as
    [dreamerId + ":" + dreamData], behind what was queued before; nothing
    else in the controller changes. *)
Theorem proposals_queue_in_order (blocks : list (string * string))
        (c : DreamConsensus) (e : ConsensusEngine) (a : BlockConsensusAgent) :
  (forall c' d, throws c' (ProposeBlock d) = false) ->
  engine_ c = Some e -> agent_ c = Some a ->
  option_map proposals (agent_ (run throws (propose_all blocks) c)) =
  Some (proposals a ++ map (fun b => blockData (fst b) (snd b)) blocks)%list /\
  option_map agentConfig (agent_ (run throws (propose_all blocks) c)) =
  Some (agentConfig a) /\
  engine_ (run throws (propose_all blocks) c) = engine_ c /\
  reads (run throws (propose_all blocks) c) = reads c.
Proof.
  intros Hquiet He Ha.
  rewrite (propose_all_run blocks Hquiet c e a He Ha).
  repeat split; reflexivity.
Qed.

(** What a failed [initialize] leaves behind, by the libconsensus call that
    threw. The two numbers are stored in every case and the height and
    latest block are kept. A throw while setting up BLS or constructing the
    engine leaves the old engine and agent; a later throw leaves the new
    engine, not started, next to the old agent (if the agent was not created
    yet) or the new one. *)
Theorem initialize_failure_state (nc rs : N) (c c' : DreamConsensus)
        (call : ExtCall) :
  initialize throws nc rs c = (c', Throw (engine_exception call)) ->
  nodeCount_ c' = nc /\ requiredSignatures_ c' = rs /\
  reads c' = reads c /\
  match call with
  | InitBLSCrypto | NewEngine =>
      engine_ c' = engine_ c /\ agent_ c' = agent_ c
  | ParseTestConfigFile _ =>
      engine_ c' = Some (mkConsensusEngine None false) /\
      agent_ c' = agent_ c
  | CreateAgent _ =>
      engine_ c' = Some (mkConsensusEngine (Some (configPath_ c)) false) /\
      agent_ c' = agent_ c
  | SubscribeProposed =>
      engine_ c' = Some (mkConsensusEngine (Some (configPath_ c)) false) /\
      agent_ c' =
      Some (mkBlockConsensusAgent (mkConsensusConfig nc rs) false false [])
  | SubscribeFinalized =>
      engine_ c' = Some (mkConsensusEngine (Some (configPath_ c)) false) /\
      agent_ c' =
      Some (mkBlockConsensusAgent (mkConsensusConfig nc rs) true false [])
  | Start =>
      engine_ c' = Some (mkConsensusEngine (Some (configPath_ c)) false) /\
      agent_ c' =
      Some (mkBlockConsensusAgent (mkConsensusConfig nc rs) true true [])
  | ProposeBlock _ => False
  end.
Proof.
  run_method; intros Hret; try discriminate;
    injection Hret as <- <-; repeat split; reflexivity.
Qed.

End ControllerFacts.

Lemma list_ascii_of_string_app (s1 s2 : string) :
  list_ascii_of_string (s1 ++ s2) =
  (list_ascii_of_string s1 ++ list_ascii_of_string s2)%list.
Proof.
  induction s1 as [|ch s1 IH]; [reflexivity|].
  change (String ch s1 ++ s2) with (String ch (s1 ++ s2)).
  cbn [list_ascii_of_string app]. rewrite IH. reflexivity.
Qed.

Lemma string_length_chars (s : string) :
  String.length s = length (list_ascii_of_string s).
Proof. induction s as [|ch s IH]; cbn; [|rewrite IH]; reflexivity. Qed.

Lemma blockData_chars (id data : string) :
  list_ascii_of_string (blockData id data) =
  (list_ascii_of_string id ++ ":"%char :: list_ascii_of_string data)%list.
Proof. unfold blockData. rewrite list_ascii_of_string_app. reflexivity. Qed.

Lemma chars_inj (s1 s2 : string) :
  list_ascii_of_string s1 = list_ascii_of_string s2 -> s1 = s2.
Proof.
  intros Heq.
  rewrite <- (string_of_list_ascii_of_string s1),
          <- (string_of_list_ascii_of_string s2), Heq.
  reflexivity.
Qed.

(** The blob is one character longer than its two parts together, and it
    determines the pair among pairs whose proposer ids have the same length
    (or whose payloads have): with proposer ids of a fixed width, such as
    account addresses, no two pairs share a blob. *)
Theorem blockData_fixed_width (id1 data1 id2 data2 : string) :
  String.length (blockData id1 data1) =
  (String.length id1 + 1 + String.length data1)%nat /\
  ((String.length id1 = String.length id2 \/
    String.length data1 = String.length data2) ->
   blockData id1 data1 = blockData id2 data2 ->
   id1 = id2 /\ data1 = data2).
Proof.
  split.
  - rewrite !string_length_chars, blockData_chars, length_app.
    cbn [length]. lia.
  - intros Hwidth Hsame.
    apply (f_equal list_ascii_of_string) in Hsame.
    rewrite !blockData_chars in Hsame.
    rewrite !string_length_chars in Hwidth.
    assert (list_ascii_of_string id1 = list_ascii_of_string id2 /\
            ":"%char :: list_ascii_of_string data1 =
            ":"%char :: list_ascii_of_string data2) as [Hid Hdata].
    { destruct Hwidth as [Hw|Hw].
      - apply app_inj_1; assumption.
      - apply app_inj_2; [cbn [length]; lia|assumption]. }
    injection Hdata as Hdata.
    split; apply chars_inj; assumption.
Qed.

(** *** Sample uses of the further properties *)

(** An engine whose BLS set-up throws once the controller is running. *)
Definition bls_once : DreamConsensus -> ExtCall -> bool :=
  fun c call =>
    match call with
    | InitBLSCrypto => isConsensusRunning c
    | _ => false
    end.

Lemma run_without_initialize_witness :
  isConsensusRunning
    (run quiet [CallProposeDreamBlock "alice" "dream"; BlockProposed "0xa1";
                BlockFinalized 1 "0xa1"] fresh) = false.
Proof.
  apply (proj2 (run_without_initialize
                  quiet
                  [CallProposeDreamBlock "alice" "dream"; BlockProposed "0xa1";
                   BlockFinalized 1 "0xa1"]
                  eq_refl)
               "network.json").
Defined.

Lemma run_keeps_wired_witness :
  exists e a,
    engine_ (run quiet ordered_run fresh) = Some e /\
    networkConfig e = Some "network.json" /\
    agent_ (run quiet ordered_run fresh) = Some a /\
    proposedSubscribed a = true /\ finalizedSubscribed a = true.
Proof.
  apply (proj2 (run_keeps_wired quiet "network.json" ordered_run)).
  vm_compute. reflexivity.
Defined.

Lemma initialized_for_good_witness :
  snd (initialize bls_once 9 9 (fst (initialize bls_once 4 3 fresh))) =
  Throw (engine_exception InitBLSCrypto) /\
  snd (proposeDreamBlock
         bls_once "alice" "dream"
         (run bls_once [CallInitialize 9 9; BlockFinalized 1 "0xa1"]
              (fst (initialize bls_once 4 3 fresh)))) <>
  Throw (runtime_error "Consensus engine not initialized").
Proof.
  split; [reflexivity|].
  apply (initialized_for_good
           bls_once 4 3 fresh (fst (initialize bls_once 4 3 fresh))
           [CallInitialize 9 9; BlockFinalized 1 "0xa1"] "alice" "dream").
  reflexivity.
Defined.

Lemma proposals_queue_in_order_witness :
  option_map proposals
    (agent_ (run quiet (propose_all [("alice", "one"); ("bob", "two");
                                     ("alice", "three")]) running)) =
  Some ["alice:one"; "bob:two"; "alice:three"].
Proof.
  apply (proposals_queue_in_order
           quiet [("alice", "one"); ("bob", "two"); ("alice", "three")]
           running
           (mkConsensusEngine (Some "network.json") true)
           (mkBlockConsensusAgent (mkConsensusConfig 4 3) true true []));
    reflexivity.
Defined.

Lemma initialize_failure_state_witness :
  engine_ stalled = Some (mkConsensusEngine (Some "network.json") false) /\
  agent_ stalled =
  Some (mkBlockConsensusAgent (mkConsensusConfig 4 3) true true []).
Proof.
  apply (initialize_failure_state start_fails 4 3 fresh stalled Start).
  reflexivity.
Defined.

Lemma blockData_fixed_width_witness :
  "0xaa" = "0xaa" /\ "b:c" = "b:c".
Proof.
  apply (proj2 (blockData_fixed_width "0xaa" "b:c" "0xaa" "b:c"));
    [left|]; reflexivity.
Defined.

End Consensus.
